(** * Talker's Cave: dialogue orchestrator and remedial practice

    A shallow embedding of [src/components/TalkersCaveGame.tsx]: the string
    helper [cleanWord] with the JavaScript string methods it and its callers
    use, the two wrappers of the external language service
    ([getPhoneticBreakdown], [analyzeReadingWithAI]), and the React component
    [TalkersCaveGame], whose handlers become transformers of an explicit
    component state.

    Strings.  A JavaScript string is a sequence of UTF-16 code units.  The
    embedding uses [string] (a sequence of [ascii]), read as the code units
    U+0000 to U+00FF; on that range [trim], [toLowerCase] and the character
    class of [cleanWord] are modelled exactly.

    Asynchrony.  The component runs one handler at a time.  Whatever a
    handler schedules (a timer, an utterance, an awaited request) is kept in
    the state together with the values its closure captured, and runs when
    the corresponding event arrives.  The recognizers, the speech
    synthesizer and the language service are the environment: the order of
    their events is not restricted.

    Effects.  After each handler the effects whose dependencies changed run
    their cleanup and their body ([commit]), as React does after a render.

    The file first gives all definitions, then the lemmas and the theorems
    on the claims C1 to C10 of the specification, then further properties
    X1 to X23 of the component, of the texts it hands to [JSON.parse] and of
    the application state of [src/App.tsx]. *)

From Stdlib Require Import Bool Arith List ZArith Lia.
From Stdlib Require Import Ascii String.
Import ListNotations.

Local Open Scope list_scope.
Local Open Scope string_scope.
Local Open Scope nat_scope.

(** ** JavaScript string primitives *)

Module Js.

(** The code units below U+0100 that [String.prototype.trim] removes:
    TAB, LF, VT, FF, CR, SPACE and NO-BREAK SPACE. *)
Definition isWhiteSpace (c : ascii) : bool :=
  let n := nat_of_ascii c in
  ((9 <=? n) && (n <=? 13) || (n =? 32) || (n =? 160))%nat.

(** [toLowerCase] on one code unit below U+0100: A-Z, and the Latin-1
    capitals U+00C0..U+00DE except the multiplication sign U+00D7. *)
Definition lowerChar (c : ascii) : ascii :=
  let n := nat_of_ascii c in
  if ((65 <=? n) && (n <=? 90)
      || (192 <=? n) && (n <=? 222) && negb (n =? 215))%nat
  then ascii_of_nat (n + 32) else c.

Fixpoint toLowerCase (s : string) : string :=
  match s with
  | EmptyString => EmptyString
  | String c r => String (lowerChar c) (toLowerCase r)
  end.

Fixpoint trimStart (s : string) : string :=
  match s with
  | EmptyString => EmptyString
  | String c r => if isWhiteSpace c then trimStart r else s
  end.

Fixpoint trimEnd (s : string) : string :=
  match s with
  | EmptyString => EmptyString
  | String c r =>
      match trimEnd r with
      | EmptyString =>
          if isWhiteSpace c then EmptyString else String c EmptyString
      | t => String c t
      end
  end.

Definition trim (s : string) : string := trimEnd (trimStart s).

(** [s.replace(/[...]/g, '')] for a character class given as a predicate. *)
Fixpoint removeChars (p : ascii -> bool) (s : string) : string :=
  match s with
  | EmptyString => EmptyString
  | String c r => if p c then removeChars p r else String c (removeChars p r)
  end.

(** [sub] is a prefix of [s]. *)
Fixpoint startsWith (s sub : string) {struct sub} : bool :=
  match sub with
  | EmptyString => true
  | String a sub' =>
      match s with
      | EmptyString => false
      | String b s' => Ascii.eqb a b && startsWith s' sub'
      end
  end.

(** [s.includes(sub)]: [sub] occurs at some position of [s]. *)
Fixpoint includes (s sub : string) : bool :=
  startsWith s sub ||
  match s with
  | EmptyString => false
  | String _ r => includes r sub
  end.

(** [s.split(sep)] for a one-character separator; never the empty list:
    the empty string splits into one empty piece. *)
Fixpoint split (sep : ascii) (s : string) : list string :=
  match s with
  | EmptyString => [EmptyString]
  | String c r =>
      if Ascii.eqb c sep then EmptyString :: split sep r
      else match split sep r with
           | h :: t => String c h :: t
           | [] => [String c EmptyString]
           end
  end.

(** [pieces.join(sep)], the inverse of [split]. *)
Fixpoint join (sep : ascii) (pieces : list string) : string :=
  match pieces with
  | [] => EmptyString
  | [p] => p
  | p :: rest => p ++ String sep (join sep rest)
  end.

(** Truthiness of a string: every string but the empty one. *)
Definition truthy (s : string) : bool :=
  match s with EmptyString => false | String _ _ => true end.

(** No occurrence of the character [c]. *)
Fixpoint lacks (c : ascii) (s : string) : bool :=
  match s with
  | EmptyString => true
  | String a r => negb (Ascii.eqb a c) && lacks c r
  end.

End Js.

(** ** [cleanWord] (line 74) *)

(** The character class [[.,?!]]. *)
Definition isPunct (c : ascii) : bool :=
  Ascii.eqb c "." || Ascii.eqb c "," || Ascii.eqb c "?" || Ascii.eqb c "!".

(** [word.trim().toLowerCase().replace(/[.,?!]/g, '')] *)
Definition cleanWord (word : string) : string :=
  Js.removeChars isPunct (Js.toLowerCase (Js.trim word)).

(** ** Data model (lines 52-56) *)

Inductive Step : Type :=
| SCENE | CHARACTER | LOADING_SCRIPT | GAME
| PRACTICE_PREP | PRACTICE | COMPLETE.

Record ScriptLine : Type := { character : string; line : string }.

Record Mistake : Type := { said : string; expected : string }.

Record PracticeWord : Type := { word : string; phonemes : list string }.

Inductive PracticeStatus : Type := IDLE | LISTENING | SUCCESS | TRY_AGAIN.

Definition Step_eqb (a b : Step) : bool :=
  match a, b with
  | SCENE, SCENE | CHARACTER, CHARACTER | LOADING_SCRIPT, LOADING_SCRIPT
  | GAME, GAME | PRACTICE_PREP, PRACTICE_PREP | PRACTICE, PRACTICE
  | COMPLETE, COMPLETE => true
  | _, _ => false
  end.

Definition PracticeStatus_eqb (a b : PracticeStatus) : bool :=
  match a, b with
  | IDLE, IDLE | LISTENING, LISTENING | SUCCESS, SUCCESS
  | TRY_AGAIN, TRY_AGAIN => true
  | _, _ => false
  end.

(** ** The external language service

    Both helpers wrap one request to the language service in [try]/[catch].
    The request, [response.text] and [JSON.parse] are not code of the
    component: what the [try] block obtains from them is the reply below,
    [Threw] standing for an exception raised anywhere before or in
    [JSON.parse] (rejected request, missing text, syntax error). *)

#[local] Unset Elimination Schemes.
Inductive json : Type :=
| JNull
| JBool (b : bool)
| JNumber (literal : string)
| JString (s : string)
| JArray (items : list json)
| JObject (fields : list (string * json)).
#[local] Set Elimination Schemes.

Inductive attempt (V : Type) : Type :=
| Threw
| Parsed (v : V).
Arguments Threw {V}.
Arguments Parsed {V} v.

(** An [async] function that awaits at most one request: it either resolves
    without the service, or sends [request] and resolves with [k reply]. *)
Inductive Async (Q R A : Type) : Type :=
| Resolved (a : A)
| Awaiting (request : Q) (k : R -> A).
Arguments Resolved {Q R A} a.
Arguments Awaiting {Q R A} request k.

(** The requests an [async] computation sends. *)
Definition requests {Q R A} (c : Async Q R A) : list Q :=
  match c with
  | Resolved _ => []
  | Awaiting q _ => [q]
  end.

(** The value it resolves with, given the reply to its request (if any). *)
Definition resolve {Q R A} (c : Async Q R A) (reply : R) : A :=
  match c with
  | Resolved a => a
  | Awaiting _ k => k reply
  end.

(** *** [getPhoneticBreakdown] (lines 76-109) *)

Definition isJString (v : json) : bool :=
  match v with JString _ => true | _ => false end.

Definition stringOf (v : json) : string :=
  match v with JString s => s | _ => EmptyString end.

Definition getPhoneticBreakdown (word : string)
  : Async string (attempt json) (list string) :=
  Awaiting word (fun reply =>
    match reply with
    | Parsed (JArray result) =>
        (* Array.isArray(result)
           && result.every(item => typeof item === 'string') *)
        if forallb isJString result then map stringOf result else [word]
    | Parsed _ => [word]
    | Threw => [word]
    end).

(** *** [analyzeReadingWithAI] (lines 111-168)

    The function is declared to resolve with [Mistake[]] and returns the
    parsed array unchecked, so an array reply carries mistakes. *)

Inductive parsedAnalysis : Type :=
| NotAnArray
| MistakeArray (result : list Mistake).

Record AnalysisRequest : Type := { targetText : string; spokenText : string }.

Definition analyzeReadingWithAI (spokenText targetText : string)
  : Async AnalysisRequest (attempt parsedAnalysis) (list Mistake) :=
  if negb (Js.truthy (Js.trim spokenText))
  then Resolved (map (fun word => {| said := ""; expected := word |})
                     (Js.split " " targetText))
  else Awaiting {| targetText := targetText; spokenText := spokenText |}
         (fun reply =>
            match reply with
            | Parsed (MistakeArray result) => result
            | Parsed NotAnArray => []
            | Threw => []
            end).

(** ** Building the practice words ([preparePractice], lines 356-365) *)

(** [new Set(values)] keeps the first occurrence of each value, in insertion
    order; [[...set]] lists them in that order. *)
Definition setAdd (seen : list string) (x : string) : list string :=
  if existsb (String.eqb x) seen then seen else (seen ++ [x])%list.

Definition arrayOfSet (values : list string) : list string :=
  fold_left setAdd values [].

(** [[...new Set(mistakes.map(m => m.expected).filter(Boolean))]] *)
Definition wordsToPractice (mistakes : list Mistake) : list string :=
  arrayOfSet (filter Js.truthy (map expected mistakes)).

(** [phoneticData.filter(p => p.phonemes.length > 0)], with [phoneticData]
    the resolved [Promise.all]: one breakdown per word, [replies] giving the
    service's reply to each word's request. *)
Definition phoneticData (replies : string -> attempt json) (words : list string)
  : list PracticeWord :=
  map (fun w => {| word := w;
                   phonemes := resolve (getPhoneticBreakdown w) (replies w) |})
      words.

Definition hasPhonemes (p : PracticeWord) : bool :=
  (0 <? List.length (phonemes p))%nat.

Definition practiceWordsOf (replies : string -> attempt json)
                           (mistakes : list Mistake) : list PracticeWord :=
  filter hasPhonemes (phoneticData replies (wordsToPractice mistakes)).

(** ** The component [TalkersCaveGame] (lines 170-460)

    The component is a set of event handlers over React state and refs.
    [State] holds the state variables and refs the handlers read or write,
    the callbacks that are scheduled but have not run yet (timers, the
    utterance, the awaited requests), each with the values its closure
    captured, and a record of what the component did to the outside
    (requests to the analyzer, [start()] calls, [onComplete()] calls). *)

(** What a callback created during a render of the dialogue captured. *)
Record Closure : Type := {
  cl_currentTurn : nat;
  cl_mistakes : list Mistake
}.

(** A [processUserTurn] call suspended at its [await] (line 285). *)
Record PendingAnalysis : Type := {
  pa_closure : Closure;
  pa_job : Async AnalysisRequest (attempt parsedAnalysis) (list Mistake)
}.

(** What the 1500ms callback of [practiceResultHandler] captured. *)
Record PracticeClosure : Type := {
  pc_index : nat;
  pc_words : list PracticeWord
}.

Record State : Type := {
  (* useState, lines 171-189 *)
  step : Step;
  currentTurn : nat;
  isAiSpeaking : bool;
  isRecognitionActive : bool;
  recognitionError : option string;
  matchedWordCount : nat;
  mistakes : list Mistake;
  isAnalyzing : bool;
  practiceWords : list PracticeWord;
  currentPracticeWordIndex : nat;
  practiceStatus : PracticeStatus;
  practiceTranscript : string;
  (* useRef, lines 191-192; [speechTimeout] is the pending 2500ms timer
     with the [fullTranscript] its callback captured *)
  hasProcessedTurn : bool;
  speechTimeout : option string;
  (* identity of the [mistakes] array: every [setMistakes] stores a new
     array, which effect dependencies compare by reference *)
  mistakesVersion : nat;
  (* scheduled callbacks *)
  startMicTimeout : bool;
  aiTimeout : option Closure;
  utterances : list Closure;
  analyses : list PendingAnalysis;
  preparing : list (list string);
  successTimeouts : list PracticeClosure;
  (* what the component did to the outside *)
  submissions : list (nat * AnalysisRequest);
  captureStarts : list nat;
  practiceStarts : nat;
  completions : nat
}.

(** Field updates. *)
Definition set_step (v : Step) (s : State) : State :=
  Build_State v (currentTurn s) (isAiSpeaking s) (isRecognitionActive s)
    (recognitionError s) (matchedWordCount s) (mistakes s) (isAnalyzing s)
    (practiceWords s) (currentPracticeWordIndex s) (practiceStatus s)
    (practiceTranscript s) (hasProcessedTurn s) (speechTimeout s)
    (mistakesVersion s) (startMicTimeout s) (aiTimeout s) (utterances s)
    (analyses s) (preparing s) (successTimeouts s) (submissions s)
    (captureStarts s) (practiceStarts s) (completions s).

Definition set_currentTurn (v : nat) (s : State) : State :=
  Build_State (step s) v (isAiSpeaking s) (isRecognitionActive s)
    (recognitionError s) (matchedWordCount s) (mistakes s) (isAnalyzing s)
    (practiceWords s) (currentPracticeWordIndex s) (practiceStatus s)
    (practiceTranscript s) (hasProcessedTurn s) (speechTimeout s)
    (mistakesVersion s) (startMicTimeout s) (aiTimeout s) (utterances s)
    (analyses s) (preparing s) (successTimeouts s) (submissions s)
    (captureStarts s) (practiceStarts s) (completions s).

Definition set_isAiSpeaking (v : bool) (s : State) : State :=
  Build_State (step s) (currentTurn s) v (isRecognitionActive s)
    (recognitionError s) (matchedWordCount s) (mistakes s) (isAnalyzing s)
    (practiceWords s) (currentPracticeWordIndex s) (practiceStatus s)
    (practiceTranscript s) (hasProcessedTurn s) (speechTimeout s)
    (mistakesVersion s) (startMicTimeout s) (aiTimeout s) (utterances s)
    (analyses s) (preparing s) (successTimeouts s) (submissions s)
    (captureStarts s) (practiceStarts s) (completions s).

Definition set_isRecognitionActive (v : bool) (s : State) : State :=
  Build_State (step s) (currentTurn s) (isAiSpeaking s) v
    (recognitionError s) (matchedWordCount s) (mistakes s) (isAnalyzing s)
    (practiceWords s) (currentPracticeWordIndex s) (practiceStatus s)
    (practiceTranscript s) (hasProcessedTurn s) (speechTimeout s)
    (mistakesVersion s) (startMicTimeout s) (aiTimeout s) (utterances s)
    (analyses s) (preparing s) (successTimeouts s) (submissions s)
    (captureStarts s) (practiceStarts s) (completions s).

Definition set_recognitionError (v : option string) (s : State) : State :=
  Build_State (step s) (currentTurn s) (isAiSpeaking s)
    (isRecognitionActive s) v (matchedWordCount s) (mistakes s)
    (isAnalyzing s) (practiceWords s) (currentPracticeWordIndex s)
    (practiceStatus s) (practiceTranscript s) (hasProcessedTurn s)
    (speechTimeout s) (mistakesVersion s) (startMicTimeout s) (aiTimeout s)
    (utterances s) (analyses s) (preparing s) (successTimeouts s)
    (submissions s) (captureStarts s) (practiceStarts s) (completions s).

Definition set_matchedWordCount (v : nat) (s : State) : State :=
  Build_State (step s) (currentTurn s) (isAiSpeaking s)
    (isRecognitionActive s) (recognitionError s) v (mistakes s)
    (isAnalyzing s) (practiceWords s) (currentPracticeWordIndex s)
    (practiceStatus s) (practiceTranscript s) (hasProcessedTurn s)
    (speechTimeout s) (mistakesVersion s) (startMicTimeout s) (aiTimeout s)
    (utterances s) (analyses s) (preparing s) (successTimeouts s)
    (submissions s) (captureStarts s) (practiceStarts s) (completions s).

Definition set_mistakes (v : list Mistake) (s : State) : State :=
  Build_State (step s) (currentTurn s) (isAiSpeaking s)
    (isRecognitionActive s) (recognitionError s) (matchedWordCount s) v
    (isAnalyzing s) (practiceWords s) (currentPracticeWordIndex s)
    (practiceStatus s) (practiceTranscript s) (hasProcessedTurn s)
    (speechTimeout s) (mistakesVersion s) (startMicTimeout s) (aiTimeout s)
    (utterances s) (analyses s) (preparing s) (successTimeouts s)
    (submissions s) (captureStarts s) (practiceStarts s) (completions s).

Definition set_isAnalyzing (v : bool) (s : State) : State :=
  Build_State (step s) (currentTurn s) (isAiSpeaking s)
    (isRecognitionActive s) (recognitionError s) (matchedWordCount s)
    (mistakes s) v (practiceWords s) (currentPracticeWordIndex s)
    (practiceStatus s) (practiceTranscript s) (hasProcessedTurn s)
    (speechTimeout s) (mistakesVersion s) (startMicTimeout s) (aiTimeout s)
    (utterances s) (analyses s) (preparing s) (successTimeouts s)
    (submissions s) (captureStarts s) (practiceStarts s) (completions s).

Definition set_practiceWords (v : list PracticeWord) (s : State) : State :=
  Build_State (step s) (currentTurn s) (isAiSpeaking s)
    (isRecognitionActive s) (recognitionError s) (matchedWordCount s)
    (mistakes s) (isAnalyzing s) v (currentPracticeWordIndex s)
    (practiceStatus s) (practiceTranscript s) (hasProcessedTurn s)
    (speechTimeout s) (mistakesVersion s) (startMicTimeout s) (aiTimeout s)
    (utterances s) (analyses s) (preparing s) (successTimeouts s)
    (submissions s) (captureStarts s) (practiceStarts s) (completions s).

Definition set_currentPracticeWordIndex (v : nat) (s : State) : State :=
  Build_State (step s) (currentTurn s) (isAiSpeaking s)
    (isRecognitionActive s) (recognitionError s) (matchedWordCount s)
    (mistakes s) (isAnalyzing s) (practiceWords s) v (practiceStatus s)
    (practiceTranscript s) (hasProcessedTurn s) (speechTimeout s)
    (mistakesVersion s) (startMicTimeout s) (aiTimeout s) (utterances s)
    (analyses s) (preparing s) (successTimeouts s) (submissions s)
    (captureStarts s) (practiceStarts s) (completions s).

Definition set_practiceStatus (v : PracticeStatus) (s : State) : State :=
  Build_State (step s) (currentTurn s) (isAiSpeaking s)
    (isRecognitionActive s) (recognitionError s) (matchedWordCount s)
    (mistakes s) (isAnalyzing s) (practiceWords s)
    (currentPracticeWordIndex s) v (practiceTranscript s)
    (hasProcessedTurn s) (speechTimeout s) (mistakesVersion s)
    (startMicTimeout s) (aiTimeout s) (utterances s) (analyses s)
    (preparing s) (successTimeouts s) (submissions s) (captureStarts s)
    (practiceStarts s) (completions s).

Definition set_practiceTranscript (v : string) (s : State) : State :=
  Build_State (step s) (currentTurn s) (isAiSpeaking s)
    (isRecognitionActive s) (recognitionError s) (matchedWordCount s)
    (mistakes s) (isAnalyzing s) (practiceWords s)
    (currentPracticeWordIndex s) (practiceStatus s) v (hasProcessedTurn s)
    (speechTimeout s) (mistakesVersion s) (startMicTimeout s) (aiTimeout s)
    (utterances s) (analyses s) (preparing s) (successTimeouts s)
    (submissions s) (captureStarts s) (practiceStarts s) (completions s).

Definition set_hasProcessedTurn (v : bool) (s : State) : State :=
  Build_State (step s) (currentTurn s) (isAiSpeaking s)
    (isRecognitionActive s) (recognitionError s) (matchedWordCount s)
    (mistakes s) (isAnalyzing s) (practiceWords s)
    (currentPracticeWordIndex s) (practiceStatus s) (practiceTranscript s) v
    (speechTimeout s) (mistakesVersion s) (startMicTimeout s) (aiTimeout s)
    (utterances s) (analyses s) (preparing s) (successTimeouts s)
    (submissions s) (captureStarts s) (practiceStarts s) (completions s).

Definition set_speechTimeout (v : option string) (s : State) : State :=
  Build_State (step s) (currentTurn s) (isAiSpeaking s)
    (isRecognitionActive s) (recognitionError s) (matchedWordCount s)
    (mistakes s) (isAnalyzing s) (practiceWords s)
    (currentPracticeWordIndex s) (practiceStatus s) (practiceTranscript s)
    (hasProcessedTurn s) v (mistakesVersion s) (startMicTimeout s)
    (aiTimeout s) (utterances s) (analyses s) (preparing s)
    (successTimeouts s) (submissions s) (captureStarts s) (practiceStarts s)
    (completions s).

Definition set_mistakesVersion (v : nat) (s : State) : State :=
  Build_State (step s) (currentTurn s) (isAiSpeaking s)
    (isRecognitionActive s) (recognitionError s) (matchedWordCount s)
    (mistakes s) (isAnalyzing s) (practiceWords s)
    (currentPracticeWordIndex s) (practiceStatus s) (practiceTranscript s)
    (hasProcessedTurn s) (speechTimeout s) v (startMicTimeout s)
    (aiTimeout s) (utterances s) (analyses s) (preparing s)
    (successTimeouts s) (submissions s) (captureStarts s) (practiceStarts s)
    (completions s).

Definition set_startMicTimeout (v : bool) (s : State) : State :=
  Build_State (step s) (currentTurn s) (isAiSpeaking s)
    (isRecognitionActive s) (recognitionError s) (matchedWordCount s)
    (mistakes s) (isAnalyzing s) (practiceWords s)
    (currentPracticeWordIndex s) (practiceStatus s) (practiceTranscript s)
    (hasProcessedTurn s) (speechTimeout s) (mistakesVersion s) v
    (aiTimeout s) (utterances s) (analyses s) (preparing s)
    (successTimeouts s) (submissions s) (captureStarts s) (practiceStarts s)
    (completions s).

Definition set_aiTimeout (v : option Closure) (s : State) : State :=
  Build_State (step s) (currentTurn s) (isAiSpeaking s)
    (isRecognitionActive s) (recognitionError s) (matchedWordCount s)
    (mistakes s) (isAnalyzing s) (practiceWords s)
    (currentPracticeWordIndex s) (practiceStatus s) (practiceTranscript s)
    (hasProcessedTurn s) (speechTimeout s) (mistakesVersion s)
    (startMicTimeout s) v (utterances s) (analyses s) (preparing s)
    (successTimeouts s) (submissions s) (captureStarts s) (practiceStarts s)
    (completions s).

Definition set_utterances (v : list Closure) (s : State) : State :=
  Build_State (step s) (currentTurn s) (isAiSpeaking s)
    (isRecognitionActive s) (recognitionError s) (matchedWordCount s)
    (mistakes s) (isAnalyzing s) (practiceWords s)
    (currentPracticeWordIndex s) (practiceStatus s) (practiceTranscript s)
    (hasProcessedTurn s) (speechTimeout s) (mistakesVersion s)
    (startMicTimeout s) (aiTimeout s) v (analyses s) (preparing s)
    (successTimeouts s) (submissions s) (captureStarts s) (practiceStarts s)
    (completions s).

Definition set_analyses (v : list PendingAnalysis) (s : State) : State :=
  Build_State (step s) (currentTurn s) (isAiSpeaking s)
    (isRecognitionActive s) (recognitionError s) (matchedWordCount s)
    (mistakes s) (isAnalyzing s) (practiceWords s)
    (currentPracticeWordIndex s) (practiceStatus s) (practiceTranscript s)
    (hasProcessedTurn s) (speechTimeout s) (mistakesVersion s)
    (startMicTimeout s) (aiTimeout s) (utterances s) v (preparing s)
    (successTimeouts s) (submissions s) (captureStarts s) (practiceStarts s)
    (completions s).

Definition set_preparing (v : list (list string)) (s : State) : State :=
  Build_State (step s) (currentTurn s) (isAiSpeaking s)
    (isRecognitionActive s) (recognitionError s) (matchedWordCount s)
    (mistakes s) (isAnalyzing s) (practiceWords s)
    (currentPracticeWordIndex s) (practiceStatus s) (practiceTranscript s)
    (hasProcessedTurn s) (speechTimeout s) (mistakesVersion s)
    (startMicTimeout s) (aiTimeout s) (utterances s) (analyses s) v
    (successTimeouts s) (submissions s) (captureStarts s) (practiceStarts s)
    (completions s).

Definition set_successTimeouts (v : list PracticeClosure) (s : State) : State :=
  Build_State (step s) (currentTurn s) (isAiSpeaking s)
    (isRecognitionActive s) (recognitionError s) (matchedWordCount s)
    (mistakes s) (isAnalyzing s) (practiceWords s)
    (currentPracticeWordIndex s) (practiceStatus s) (practiceTranscript s)
    (hasProcessedTurn s) (speechTimeout s) (mistakesVersion s)
    (startMicTimeout s) (aiTimeout s) (utterances s) (analyses s)
    (preparing s) v (submissions s) (captureStarts s) (practiceStarts s)
    (completions s).

Definition set_submissions (v : list (nat * AnalysisRequest)) (s : State)
  : State :=
  Build_State (step s) (currentTurn s) (isAiSpeaking s)
    (isRecognitionActive s) (recognitionError s) (matchedWordCount s)
    (mistakes s) (isAnalyzing s) (practiceWords s)
    (currentPracticeWordIndex s) (practiceStatus s) (practiceTranscript s)
    (hasProcessedTurn s) (speechTimeout s) (mistakesVersion s)
    (startMicTimeout s) (aiTimeout s) (utterances s) (analyses s)
    (preparing s) (successTimeouts s) v (captureStarts s) (practiceStarts s)
    (completions s).

Definition set_captureStarts (v : list nat) (s : State) : State :=
  Build_State (step s) (currentTurn s) (isAiSpeaking s)
    (isRecognitionActive s) (recognitionError s) (matchedWordCount s)
    (mistakes s) (isAnalyzing s) (practiceWords s)
    (currentPracticeWordIndex s) (practiceStatus s) (practiceTranscript s)
    (hasProcessedTurn s) (speechTimeout s) (mistakesVersion s)
    (startMicTimeout s) (aiTimeout s) (utterances s) (analyses s)
    (preparing s) (successTimeouts s) (submissions s) v (practiceStarts s)
    (completions s).

Definition set_practiceStarts (v : nat) (s : State) : State :=
  Build_State (step s) (currentTurn s) (isAiSpeaking s)
    (isRecognitionActive s) (recognitionError s) (matchedWordCount s)
    (mistakes s) (isAnalyzing s) (practiceWords s)
    (currentPracticeWordIndex s) (practiceStatus s) (practiceTranscript s)
    (hasProcessedTurn s) (speechTimeout s) (mistakesVersion s)
    (startMicTimeout s) (aiTimeout s) (utterances s) (analyses s)
    (preparing s) (successTimeouts s) (submissions s) (captureStarts s) v
    (completions s).

Definition set_completions (v : nat) (s : State) : State :=
  Build_State (step s) (currentTurn s) (isAiSpeaking s)
    (isRecognitionActive s) (recognitionError s) (matchedWordCount s)
    (mistakes s) (isAnalyzing s) (practiceWords s)
    (currentPracticeWordIndex s) (practiceStatus s) (practiceTranscript s)
    (hasProcessedTurn s) (speechTimeout s) (mistakesVersion s)
    (startMicTimeout s) (aiTimeout s) (utterances s) (analyses s)
    (preparing s) (successTimeouts s) (submissions s) (captureStarts s)
    (practiceStarts s) v.

(** The double quote character of the error messages. *)
Definition dquote : string := String (ascii_of_nat 34) EmptyString.

Definition optString_eqb (a b : option string) : bool :=
  match a, b with
  | None, None => true
  | Some x, Some y => String.eqb x y
  | _, _ => false
  end.

(** Truthiness of a [string | null] state variable. *)
Definition optTruthy (a : option string) : bool :=
  match a with Some x => Js.truthy x | None => false end.

Definition removeAt {A} (i : nat) (l : list A) : list A :=
  (firstn i l ++ skipn (S i) l)%list.

(** What [recognizer.start()] did: started, threw [InvalidStateError]
    (already started), or threw something else. *)
Inductive StartOutcome : Type := Started | InvalidStateError | OtherStartError.

Inductive Event : Type :=
  (* the two 700ms timers of the turn effect (lines 441, 451) *)
| MicTimeout (o : StartOutcome)
| AiTimeout
  (* speech synthesis: [onstart]; [onend], [onerror] or the fallback timer
     of the [i]-th outstanding callback *)
| UtteranceStart
| UtteranceEnd (i : nat)
  (* the dialogue recognizer *)
| CaptureStart
| CaptureEnd
| CaptureResult (transcripts : list string)
| CaptureError (kind : string)
  (* the 2500ms silence timer (line 311) *)
| SilenceTimeout
  (* the [i]-th awaited analysis resolves *)
| AnalysisSettled (i : nat) (reply : attempt parsedAnalysis)
  (* the [Promise.all] of the [i]-th [preparePractice] resolves *)
| BreakdownsSettled (i : nat) (replies : string -> attempt json)
  (* the practice microphone button and the practice recognizer *)
| ListenTrigger (o : StartOutcome)
| PracticeResult (transcript : string)
| PracticeError (kind : string)
| PracticeEnd
  (* the [i]-th pending 1500ms timer (line 207) *)
| SuccessTimeout (i : nat).

Section Component.

(** Fixed while the dialogue runs: the generated script, the role the
    learner chose, and whether speech synthesis has a voice.  The browser is
    taken to provide [SpeechRecognition] (without it the component only
    shows an error, lines 274-276). *)
Variable script : list ScriptLine.
Variable selectedCharacter : string.
Variable hasVoices : bool.

(** [currentTurn < script.length - 1], on JavaScript numbers. *)
Definition beforeLastTurn (turn : nat) : bool :=
  (Z.of_nat turn <? Z.of_nat (List.length script) - 1)%Z.

(** *** Dialogue handlers *)

(** [processUserTurn] up to its [await] (lines 278-285).  The call of
    [stop()] (line 281) acts on the recognizer only; its [end] event arrives
    as [CaptureEnd].  [submissions] records the request together with the
    turn it is for. *)
Definition processUserTurn (transcript : string) (s : State) : State :=
  if hasProcessedTurn s then s
  else
    let s := set_hasProcessedTurn true s in
    let s := set_isAnalyzing true s in
    match nth_error script (currentTurn s) with
    | None => s (* [script[currentTurn].line] throws: the call rejects *)
    | Some target =>
        let job := analyzeReadingWithAI transcript (line target) in
        let cl := {| cl_currentTurn := currentTurn s;
                     cl_mistakes := mistakes s |} in
        let sent := map (pair (currentTurn s)) (requests job) in
        let s := set_submissions (submissions s ++ sent)%list s in
        let pending := {| pa_closure := cl; pa_job := job |} in
        set_analyses (analyses s ++ [pending])%list s
    end.

(** [processUserTurn] after its [await] (lines 286-295). *)
Definition processUserTurn_resume (cl : Closure)
    (currentMistakes : list Mistake) (s : State) : State :=
  let s := set_isAnalyzing false s in
  let allMistakes := (cl_mistakes cl ++ currentMistakes)%list in
  let s := set_mistakes allMistakes s in
  let s := set_mistakesVersion (S (mistakesVersion s)) s in
  if beforeLastTurn (cl_currentTurn cl)
  then set_currentTurn (S (currentTurn s)) s
  else set_step (if (0 <? List.length allMistakes)%nat
                 then PRACTICE_PREP else COMPLETE) s.

(** [handleResult] (lines 303-314); [transcripts] are
    [event.results[i][0].transcript] for [i] from [event.resultIndex]. *)
Definition handleResult (transcripts : list string) (s : State) : State :=
  if hasProcessedTurn s then s
  else
    let fullTranscript := String.concat "" transcripts in
    let words := filter Js.truthy (map cleanWord (Js.split " " fullTranscript)) in
    let s := set_matchedWordCount (List.length words) s in
    set_speechTimeout (Some fullTranscript) s.

(** The callback of the silence timer (line 312). *)
Definition silenceElapsed (fullTranscript : string) (s : State) : State :=
  if Js.truthy (Js.trim fullTranscript)
  then processUserTurn (Js.trim fullTranscript) s
  else s.

(** [handleError] of the dialogue recognizer (lines 315-322). *)
Definition isBenign (errorType : string) : bool :=
  existsb (String.eqb errorType) ["aborted"; "no-speech"].

Definition dialogueErrorMessage (errorType : string) : string :=
  if String.eqb errorType "not-allowed"
     || String.eqb errorType "service-not-allowed"
  then "Microphone access denied."
  else "Mic error: " ++ dquote ++ errorType ++ dquote ++ ".".

Definition handleError (errorType : string) (s : State) : State :=
  let s := set_speechTimeout None s in
  if isBenign errorType then set_isRecognitionActive false s
  else set_isRecognitionActive false
         (set_recognitionError (Some (dialogueErrorMessage errorType)) s).

Definition handleStart (s : State) : State := set_isRecognitionActive true s.
Definition handleEnd (s : State) : State := set_isRecognitionActive false s.

(** [startRecognition] (lines 423-433). *)
Definition startRecognition (o : StartOutcome) (s : State) : State :=
  if isRecognitionActive s then s
  else
    let s := set_hasProcessedTurn false s in
    let s := set_matchedWordCount 0 s in
    let s := set_recognitionError None s in
    let s := set_captureStarts (captureStarts s ++ [currentTurn s])%list s in
    match o with
    | Started => s
    | InvalidStateError => s
    | OtherStartError =>
        set_recognitionError (Some "Failed to start microphone.") s
    end.

(** [speak] (lines 339-352): the new utterance, or without a voice the
    fallback timer, holds the completion callback.  Whether an utterance
    cancelled by line 344 still calls back is the browser's choice, so
    earlier callbacks stay outstanding. *)
Definition speak (onEnd : Closure) (s : State) : State :=
  set_utterances (utterances s ++ [onEnd])%list s.

(** [handleAiTurnEnd] (lines 447-450). *)
Definition handleAiTurnEnd (cl : Closure) (s : State) : State :=
  if beforeLastTurn (cl_currentTurn cl)
  then set_currentTurn (S (currentTurn s)) s
  else set_step (if (0 <? List.length (cl_mistakes cl))%nat
                 then PRACTICE_PREP else COMPLETE) s.

(** *** Practice handlers *)

(** [practiceResultHandler.current] (lines 199-220). *)
Definition practiceResultHandler (transcript : string) (s : State) : State :=
  let s := set_practiceTranscript transcript s in
  if ((0 <? List.length (practiceWords s))
      && (currentPracticeWordIndex s <? List.length (practiceWords s)))%nat
  then
    match nth_error (practiceWords s) (currentPracticeWordIndex s) with
    | None => s
    | Some target =>
        if Js.includes (cleanWord transcript) (cleanWord (word target))
        then
          let s := set_practiceStatus SUCCESS s in
          set_successTimeouts
            (successTimeouts s ++
               [{| pc_index := currentPracticeWordIndex s;
                   pc_words := practiceWords s |}])%list s
        else set_practiceStatus TRY_AGAIN s
    end
  else s.

(** The callback of the 1500ms timer (lines 208-214). *)
Definition successElapsed (pc : PracticeClosure) (s : State) : State :=
  if (Z.of_nat (pc_index pc) <? Z.of_nat (List.length (pc_words pc)) - 1)%Z
  then
    let s := set_currentPracticeWordIndex (S (currentPracticeWordIndex s)) s in
    let s := set_practiceStatus IDLE s in
    set_practiceTranscript "" s
  else set_completions (S (completions s)) s.

(** [handleError] of the practice recognizer (lines 234-239). *)
Definition practiceHandleError (errorType : string) (s : State) : State :=
  let s :=
    if negb (String.eqb errorType "no-speech")
       && negb (String.eqb errorType "aborted")
    then set_recognitionError
           (Some ("Mic error: " ++ dquote ++ errorType ++ dquote ++ ".")) s
    else s in
  set_practiceStatus IDLE s.

(** [handleEnd] of the practice recognizer (lines 240-242). *)
Definition practiceHandleEnd (s : State) : State :=
  set_practiceStatus
    (if PracticeStatus_eqb (practiceStatus s) LISTENING then IDLE
     else practiceStatus s) s.

(** [startPracticeRecognition] (lines 369-384). *)
Definition startPracticeRecognition (o : StartOutcome) (s : State) : State :=
  if negb (PracticeStatus_eqb (practiceStatus s) IDLE) then s
  else
    let s := set_practiceStatus LISTENING s in
    let s := set_practiceTranscript "" s in
    let s := set_practiceStarts (S (practiceStarts s)) s in
    match o with
    | Started => s
    | InvalidStateError | OtherStartError =>
        let s := set_recognitionError
                   (Some "Mic failed to start. Please try again.") s in
        set_practiceStatus IDLE s
    end.

(** [preparePractice] after its [await] (lines 360-364). *)
Definition preparePractice_resume (words : list string)
    (replies : string -> attempt json) (s : State) : State :=
  let kept := filter hasPhonemes (phoneticData replies words) in
  let s := set_practiceWords kept s in
  let s := set_currentPracticeWordIndex 0 s in
  let s := set_practiceStatus IDLE s in
  let s := set_practiceTranscript "" s in
  set_step PRACTICE s.

(** *** Effects *)

(** The body of the turn effect (lines 436-453). *)
Definition turnEffect (s : State) : State :=
  if negb (Step_eqb (step s) GAME)
     || (List.length script =? 0)%nat
     || (List.length script <=? currentTurn s)%nat
     || optTruthy (recognitionError s)
     || isAiSpeaking s
  then s
  else
    match nth_error script (currentTurn s) with
    | None => s
    | Some currentLine =>
        if String.eqb (character currentLine) selectedCharacter
        then set_startMicTimeout true s
        else set_aiTimeout (Some {| cl_currentTurn := currentTurn s;
                                    cl_mistakes := mistakes s |}) s
    end.

(** The body of the preparation effect (lines 355-366), up to the [await]
    of [preparePractice]. *)
Definition prepEffect (s : State) : State :=
  if Step_eqb (step s) PRACTICE_PREP
  then
    let words := wordsToPractice (mistakes s) in
    if (List.length words =? 0)%nat
    then set_completions (S (completions s)) s
    else set_preparing (preparing s ++ [words])%list s
  else s.

(** Dependency lists.  The listener effect (line 337) depends on [step] and
    on [processUserTurn], that is on [currentTurn] and [mistakes]; the turn
    effect (line 454) also on [recognitionError], [isAiSpeaking] and, through
    [startRecognition], on [isRecognitionActive]; the preparation effect
    (line 367) on [step] and [mistakes]. *)
Definition sameListenerDeps (a b : State) : bool :=
  Step_eqb (step a) (step b)
  && (currentTurn a =? currentTurn b)%nat
  && (mistakesVersion a =? mistakesVersion b)%nat.

Definition sameTurnDeps (a b : State) : bool :=
  sameListenerDeps a b
  && optString_eqb (recognitionError a) (recognitionError b)
  && Bool.eqb (isAiSpeaking a) (isAiSpeaking b)
  && Bool.eqb (isRecognitionActive a) (isRecognitionActive b).

Definition samePrepDeps (a b : State) : bool :=
  Step_eqb (step a) (step b)
  && (mistakesVersion a =? mistakesVersion b)%nat.

(** After the handler's updates are rendered, every effect whose
    dependencies changed runs its cleanup (which clears the timer the effect
    had set) and then its body. *)
Definition commit (before after : State) : State :=
  let s := after in
  let s := if sameListenerDeps before after then s
           else set_speechTimeout None s in
  let s := if sameTurnDeps before after then s
           else turnEffect (set_aiTimeout None (set_startMicTimeout false s)) in
  if samePrepDeps before after then s else prepEffect s.

(** *** Events *)

(** The dialogue listeners are registered while [step] is [GAME]
    (line 299). *)
Definition listening (s : State) : bool := Step_eqb (step s) GAME.

Definition handle (e : Event) (s : State) : State :=
  match e with
  | MicTimeout o =>
      if startMicTimeout s
      then startRecognition o (set_startMicTimeout false s) else s
  | AiTimeout =>
      match aiTimeout s with
      | Some cl => speak cl (set_aiTimeout None s)
      | None => s
      end
  | UtteranceStart =>
      match utterances s with
      | _ :: _ => if hasVoices then set_isAiSpeaking true s else s
      | [] => s
      end
  | UtteranceEnd i =>
      match nth_error (utterances s) i with
      | Some cl =>
          let s := set_utterances (removeAt i (utterances s)) s in
          let s := if hasVoices then set_isAiSpeaking false s else s in
          handleAiTurnEnd cl s
      | None => s
      end
  | CaptureStart => if listening s then handleStart s else s
  | CaptureEnd => if listening s then handleEnd s else s
  | CaptureResult transcripts =>
      if listening s then handleResult transcripts s else s
  | CaptureError kind => if listening s then handleError kind s else s
  | SilenceTimeout =>
      match speechTimeout s with
      | Some fullTranscript =>
          silenceElapsed fullTranscript (set_speechTimeout None s)
      | None => s
      end
  | AnalysisSettled i reply =>
      match nth_error (analyses s) i with
      | Some pa =>
          processUserTurn_resume (pa_closure pa) (resolve (pa_job pa) reply)
            (set_analyses (removeAt i (analyses s)) s)
      | None => s
      end
  | BreakdownsSettled i replies =>
      match nth_error (preparing s) i with
      | Some words =>
          preparePractice_resume words replies
            (set_preparing (removeAt i (preparing s)) s)
      | None => s
      end
  | ListenTrigger o => startPracticeRecognition o s
  | PracticeResult transcript => practiceResultHandler transcript s
  | PracticeError kind => practiceHandleError kind s
  | PracticeEnd => practiceHandleEnd s
  | SuccessTimeout i =>
      match nth_error (successTimeouts s) i with
      | Some pc =>
          successElapsed pc
            (set_successTimeouts (removeAt i (successTimeouts s)) s)
      | None => s
      end
  end.

(** One event: its handler, then the effects. *)
Definition dispatch (e : Event) (s : State) : State := commit s (handle e s).

Definition run (events : list Event) (s : State) : State :=
  fold_left (fun s e => dispatch e s) events s.

(** The component when [generateScript] has stored the script (line 416):
    [step] is [GAME], [currentTurn] is 0, [mistakes] is empty (line 463), and
    the turn effect has run for the first turn. *)
Definition scriptLoaded : State :=
  {| step := GAME; currentTurn := 0; isAiSpeaking := false;
     isRecognitionActive := false; recognitionError := None;
     matchedWordCount := 0; mistakes := []; isAnalyzing := false;
     practiceWords := []; currentPracticeWordIndex := 0;
     practiceStatus := IDLE; practiceTranscript := "";
     hasProcessedTurn := false; speechTimeout := None;
     mistakesVersion := 0; startMicTimeout := false; aiTimeout := None;
     utterances := []; analyses := []; preparing := [];
     successTimeouts := []; submissions := []; captureStarts := [];
     practiceStarts := 0; completions := 0 |}.

Definition started : State := turnEffect scriptLoaded.

(** The states the component reaches from there. *)
Definition reachable (s : State) : Prop :=
  exists events, s = run events started.

End Component.

Arguments dispatch script selectedCharacter hasVoices e s : simpl never.

(** ** Predicates on states and lists used in the statements *)

(** Nothing of the dialogue or of a preparation is outstanding and the
    session is complete. *)
Definition settled (s : State) : Prop :=
  step s = COMPLETE /\ analyses s = [] /\ utterances s = [] /\
  preparing s = [] /\ aiTimeout s = None /\ speechTimeout s = None.

(** While an error is shown, the turn effect has no microphone timer
    pending. *)
Definition errorBlocksMic (s : State) : Prop :=
  optTruthy (recognitionError s) = true -> startMicTimeout s = false.

(** An error is shown and no microphone timer is pending. *)
Definition blocked (s : State) : Prop :=
  optTruthy (recognitionError s) = true /\ startMicTimeout s = false.

(** The mistake of a word that was not said at all. *)
Definition omitted (w : string) : Mistake := {| said := ""; expected := w |}.

Definition differs (x y : string) : bool := negb (String.eqb y x).

Definition unseen (seen : list string) (y : string) : bool :=
  negb (existsb (String.eqb y) seen).

(** ** Scenarios *)

(** The scenario of the specification: eight turns, the learner speaks the
    turns 1, 3, 5 and 7. *)
Definition eightTurns : list ScriptLine :=
  [ {| character := "Shopkeeper"; line := "Can I help you" |};
    {| character := "Customer"; line := "I want two apples" |};
    {| character := "Shopkeeper"; line := "Red or green" |};
    {| character := "Customer"; line := "Red ones please" |};
    {| character := "Shopkeeper"; line := "Here you are" |};
    {| character := "Customer"; line := "How much is it" |};
    {| character := "Shopkeeper"; line := "Two coins" |};
    {| character := "Customer"; line := "Thank you" |} ].

(** Two-turn scripts whose second turn is the learner's. *)
Definition shortScript : list ScriptLine :=
  [ {| character := "Shopkeeper"; line := "Can I help you" |};
    {| character := "Customer"; line := "I want a cat" |} ].

Definition twoScript : list ScriptLine :=
  [ {| character := "Shopkeeper"; line := "How many apples" |};
    {| character := "Customer"; line := "I want two" |} ].

(** The events of a synthesized turn and of a spoken one, up to the
    submission of the transcript and the end of the capture. *)
Definition aiTurn : list Event := [AiTimeout; UtteranceStart; UtteranceEnd 0].

Definition userSpeaks (transcript : string) : list Event :=
  [ MicTimeout Started; CaptureStart; CaptureResult [transcript];
    SilenceTimeout; CaptureEnd ].

Definition noMistake : Event := AnalysisSettled 0 (Parsed (MistakeArray [])).

(** The analyzer reports one omitted word. *)
Definition oneOmitted (w : string) : Event :=
  AnalysisSettled 0 (Parsed (MistakeArray [ {| said := ""; expected := w |} ])).

(** The dialogue of [twoScript] with "two" left out, then the practice of
    the word "two" with the syllable "too". *)
Definition practisingTwo : State :=
  run twoScript "Customer" true
    (aiTurn ++ userSpeaks "I want"
     ++ [ oneOmitted "two";
          BreakdownsSettled 0 (fun _ => Parsed (JArray [JString "too"])) ])%list
    (started twoScript "Customer").

(** That practice triggered, answered with "three", the capture ended. *)
Definition afterWrongAnswer : State :=
  run twoScript "Customer" true
    [ListenTrigger Started; PracticeResult "three"; PracticeEnd] practisingTwo.

(** Two mistakes whose expected words differ only in case. *)
Definition mistakesTwoTwice : list Mistake :=
  [ {| said := "to"; expected := "Two" |};
    {| said := ""; expected := "two" |} ].

(** The dialogue of [shortScript] with the analysis of its last turn
    awaited. *)
Definition lastTurnAwaited : State :=
  run shortScript "Customer" true (aiTurn ++ userSpeaks "I want a")%list
    (started shortScript "Customer").

(** The learner left out "cat": the breakdown of "cat" is awaited. *)
Definition awaitingBreakdowns : State :=
  dispatch shortScript "Customer" true (oneOmitted "cat") lastTurnAwaited.

(** The breakdown service answers with an empty array. *)
Definition emptyBreakdownRun : State :=
  dispatch shortScript "Customer" true
    (BreakdownsSettled 0 (fun _ => Parsed (JArray []))) awaitingBreakdowns.

(** The eight turns played without a mistake, the analysis of the last one
    awaited. *)
Definition lastAnalysisAwaited : State :=
  run eightTurns "Customer" true
    (aiTurn ++ userSpeaks "I want two apples" ++ [noMistake]
     ++ aiTurn ++ userSpeaks "Red ones please" ++ [noMistake]
     ++ aiTurn ++ userSpeaks "How much is it" ++ [noMistake]
     ++ aiTurn ++ userSpeaks "Thank you")%list
    (started eightTurns "Customer").

(** Its first three turns as a script of their own, the last utterance
    playing. *)
Definition lastUtterancePlaying : State :=
  run (firstn 3 eightTurns) "Customer" true
    (aiTurn ++ userSpeaks "I want two apples" ++ [noMistake]
     ++ [AiTimeout; UtteranceStart])%list
    (started (firstn 3 eightTurns) "Customer").



(** Turn 1 of [eightTurns], the learner's first, with the capture active. *)
Definition capturing : State :=
  run eightTurns "Customer" true
    (aiTurn ++ [MicTimeout Started; CaptureStart])%list
    (started eightTurns "Customer").

(** Turn 1 of [eightTurns] with a slow analyzer: the transcript is
    submitted, the capture ends, the turn effect starts the capture again
    for the same turn, and what the learner says then is submitted as
    well. *)
Definition slowAnalyzer : list Event :=
  (aiTurn
   ++ userSpeaks "I want two apples"
   ++ [ MicTimeout Started; CaptureStart;
        CaptureResult ["two apples please"]; SilenceTimeout ])%list.

(** Turn 1 of [eightTurns] submitted, its analysis awaited. *)
Definition turnOneAwaited : State :=
  run eightTurns "Customer" true (aiTurn ++ userSpeaks "I want two apples")%list
    (started eightTurns "Customer").

(** ** Further code of the component and of the application *)

(** *** The text handed to [JSON.parse] (lines 95-100, 150-160, 406-414) *)

(** [s.indexOf(c)] and [s.lastIndexOf(c)] for a character; [None] is -1. *)
Fixpoint indexOf (c : ascii) (s : string) : option nat :=
  match s with
  | EmptyString => None
  | String a r =>
      if Ascii.eqb a c then Some 0
      else match indexOf c r with Some i => Some (S i) | None => None end
  end.

Fixpoint lastIndexOf (c : ascii) (s : string) : option nat :=
  match s with
  | EmptyString => None
  | String a r =>
      match lastIndexOf c r with
      | Some i => Some (S i)
      | None => if Ascii.eqb a c then Some 0 else None
      end
  end.

Fixpoint dropChars (n : nat) (s : string) : string :=
  match n, s with
  | S n', String _ r => dropChars n' r
  | _, _ => s
  end.

Fixpoint takeChars (n : nat) (s : string) : string :=
  match n, s with
  | S n', String a r => String a (takeChars n' r)
  | _, _ => EmptyString
  end.

(** [s.substring(from, to)] where [from <= to], as at its call sites. *)
Definition substring (from to : nat) (s : string) : string :=
  takeChars (to - from) (dropChars from s).

(** Lines 96-100 (and 155-159, 411-413): keep what lies between the first
    opening and the last closing bracket. *)
Definition sliceArray (jsonStr : string) : string :=
  match indexOf "[" jsonStr, lastIndexOf "]" jsonStr with
  | Some firstBracket, Some lastBracket =>
      if firstBracket <? lastBracket
      then substring firstBracket (lastBracket + 1) jsonStr
      else jsonStr
  | _, _ => jsonStr
  end.

(** The text [getPhoneticBreakdown] parses (lines 95-102). *)
Definition breakdownJsonText (text : string) : string :=
  sliceArray (Js.trim text).

(** [s.indexOf(sub)] for a string: the first position where [sub] starts. *)
Fixpoint indexOfString (sub s : string) : option nat :=
  if Js.startsWith s sub then Some 0
  else match s with
       | EmptyString => None
       | String _ r =>
           match indexOfString sub r with
           | Some i => Some (S i)
           | None => None
           end
       end.

Definition fence : string :=
  String (ascii_of_nat 96) (String (ascii_of_nat 96)
    (String (ascii_of_nat 96) EmptyString)).

(** The first group of [jsonStr.match(fenceRegex)] for the regular
    expression of lines 151 and 407: three backquotes, optionally [json],
    white space, the (lazy) group, white space, three backquotes.  The
    match starts at the first fence; neither [json] nor white space holds a
    backquote, so the greedy choices never have to be undone, and the lazy
    group ends where the white space before the next fence begins.  [None]
    when there is no match. *)
Definition fenceMatch (jsonStr : string) : option string :=
  match indexOfString fence jsonStr with
  | None => None
  | Some opening =>
      let rest := dropChars (opening + 3) jsonStr in
      let rest := if Js.startsWith rest "json" then dropChars 4 rest else rest in
      let rest := Js.trimStart rest in
      match indexOfString fence rest with
      | None => None
      | Some closing => Some (Js.trimEnd (takeChars closing rest))
      end
  end.

(** The text [analyzeReadingWithAI] and [generateScript] parse (lines
    150-160 and 406-414). *)
Definition fencedJsonText (text : string) : string :=
  let jsonStr := Js.trim text in
  match fenceMatch jsonStr with
  | Some (String a r) => Js.trim (String a r)
  | _ => sliceArray jsonStr
  end.

(** *** The voice of an utterance (lines 346 and 470) *)

Record Voice : Type := { lang : string; name : string }.

Definition englishVoice (voices : list Voice) : option Voice :=
  match find (fun v => Js.startsWith (lang v) "en" && Js.includes (name v) "Google")
             voices with
  | Some v => Some v
  | None => find (fun v => Js.startsWith (lang v) "en") voices
  end.

(** *** Choosing the scene and the role, and loading the script
    (lines 386-421 and 462-464) *)

Module Selection.

(** The keys of [TALKERS_CAVE_SCENES]. *)
Inductive Scene : Type := DoctorAndPatient | ShopkeeperAndCustomer | WaiterAndCustomer.

Record State : Type := {
  step : Step;
  selectedScene : option Scene;
  centeredScene : Scene;
  selectedCharacter : option string;
  script : list json;
  error : option string;
  currentTurn : nat;
  mistakes : list Mistake
}.

Definition handleSceneSelect (scene : Scene) (s : State) : State :=
  {| step := CHARACTER; selectedScene := Some scene;
     centeredScene := centeredScene s;
     selectedCharacter := selectedCharacter s; script := script s;
     error := error s; currentTurn := currentTurn s;
     mistakes := mistakes s |}.

Definition handleBackToScenes (s : State) : State :=
  {| step := SCENE; selectedScene := None;
     centeredScene := ShopkeeperAndCustomer;
     selectedCharacter := None; script := script s;
     error := error s; currentTurn := currentTurn s;
     mistakes := mistakes s |}.

(** [generateScript] up to its [await] (line 387). *)
Definition generateScript (s : State) : State :=
  {| step := LOADING_SCRIPT; selectedScene := selectedScene s;
     centeredScene := centeredScene s;
     selectedCharacter := selectedCharacter s; script := script s;
     error := None; currentTurn := currentTurn s;
     mistakes := mistakes s |}.

(** [handleCharacterSelect] (line 463). *)
Definition handleCharacterSelect (character : string) (s : State) : State :=
  generateScript
    {| step := step s; selectedScene := selectedScene s;
       centeredScene := centeredScene s;
       selectedCharacter := Some character; script := script s;
       error := error s; currentTurn := currentTurn s;
       mistakes := [] |}.

Definition hasKey (key : string) (fields : list (string * json)) : bool :=
  existsb (fun field => String.eqb (fst field) key) fields.

(** ['character' in item && 'line' in item]; for an item that is no object
    the operator [in] throws, and an array has neither key: both end in
    the [catch] like a [false]. *)
Definition isScriptItem (item : json) : bool :=
  match item with
  | JObject fields => hasKey "character" fields && hasKey "line" fields
  | _ => false
  end.

(** [generateScript] after its [await] (lines 415-420); [reply] is what
    the [try] block obtained up to [JSON.parse]. *)
Definition generateScript_resume (reply : attempt json) (s : State) : State :=
  match reply with
  | Parsed (JArray parsedScript) =>
      if forallb isScriptItem parsedScript
      then {| step := GAME; selectedScene := selectedScene s;
              centeredScene := centeredScene s;
              selectedCharacter := selectedCharacter s;
              script := parsedScript;
              error := error s; currentTurn := 0;
              mistakes := mistakes s |}
      else {| step := CHARACTER; selectedScene := selectedScene s;
              centeredScene := centeredScene s;
              selectedCharacter := selectedCharacter s; script := script s;
              error := Some "Sorry, I couldn't create a script. Please try again.";
              currentTurn := currentTurn s;
              mistakes := mistakes s |}
  | _ => {| step := CHARACTER; selectedScene := selectedScene s;
            centeredScene := centeredScene s;
            selectedCharacter := selectedCharacter s; script := script s;
            error := Some "Sorry, I couldn't create a script. Please try again.";
            currentTurn := currentTurn s;
            mistakes := mistakes s |}
  end.

End Selection.

(** *** The application ([src/App.tsx]) *)

Module App.

Record State : Type := {
  userGrade : option Z;
  currentLevel : nat;
  gameKey : nat;
  isFinished : bool
}.

(** The initial state (lines 6-9). *)
Definition initial : State :=
  {| userGrade := None; currentLevel := 0; gameKey := 0; isFinished := false |}.

Definition handleSetGrade (grade : Z) (s : State) : State :=
  {| userGrade := Some grade; currentLevel := 0; gameKey := 0;
     isFinished := false |}.

Definition handleBackToGrades (s : State) : State :=
  {| userGrade := None; currentLevel := currentLevel s; gameKey := gameKey s;
     isFinished := isFinished s |}.

Definition handleFinish (s : State) : State :=
  {| userGrade := userGrade s; currentLevel := S (currentLevel s);
     gameKey := gameKey s; isFinished := true |}.

Definition handlePlayAgain (s : State) : State :=
  {| userGrade := userGrade s; currentLevel := currentLevel s;
     gameKey := S (gameKey s); isFinished := false |}.

(** [!userGrade] is false for a grade that is a number other than 0. *)
Definition gradeChosen (s : State) : bool :=
  match userGrade s with
  | Some grade => negb (grade =? 0)%Z
  | None => false
  end.

(** What the render (lines 32-64) shows. *)
Inductive Screen : Type := GradeSelection | LevelComplete | Game.

Definition screen (s : State) : Screen :=
  if negb (gradeChosen s) then GradeSelection
  else if isFinished s then LevelComplete else Game.

(** The clicks the screen offers, and the two callbacks handed to the game:
    [onBackToGrades], and [onComplete], which a timer of a game may still
    call when the game is no longer shown. *)
Inductive Event : Type :=
| GradeSelect (grade : Z)
| PlayAgain
| BackToGrades
| Complete.

Definition handle (e : Event) (s : State) : State :=
  match e, screen s with
  | GradeSelect grade, GradeSelection => handleSetGrade grade s
  | PlayAgain, LevelComplete => handlePlayAgain s
  | BackToGrades, Game => handleBackToGrades s
  | Complete, _ => handleFinish s
  | _, _ => s
  end.

Definition run (events : list Event) (s : State) : State :=
  fold_left (fun s e => handle e s) events s.

End App.

(** *** Further predicates and scenarios *)

(** The dialogue is left and none of its callbacks is outstanding. *)
Definition dialogueOver (s : State) : Prop :=
  step s <> GAME /\ analyses s = [] /\ speechTimeout s = None.

(** With an empty script nothing is ever scheduled. *)
Definition idle (s : State) : Prop :=
  step s = GAME /\ analyses s = [] /\ utterances s = [] /\
  aiTimeout s = None /\ startMicTimeout s = false /\ preparing s = [] /\
  successTimeouts s = [] /\ practiceWords s = [] /\
  completions s = 0 /\ captureStarts s = [] /\ submissions s = [].

(** A request as the component sends it for turn [turn]. *)
Definition wellFormedSubmission (script : list ScriptLine)
    (entry : nat * AnalysisRequest) : Prop :=
  Js.truthy (Js.trim (spokenText (snd entry))) = true /\
  Js.trim (spokenText (snd entry)) = spokenText (snd entry) /\
  exists target, nth_error script (fst entry) = Some target /\
                 targetText (snd entry) = line target.

Definition isMicTimeout (e : Event) : bool :=
  match e with MicTimeout _ => true | _ => false end.

(** The practice of [twoScript] after the right answer. *)
Definition afterRightAnswer : State :=
  run twoScript "Customer" true
    [ListenTrigger Started; PracticeResult "Two!"; PracticeEnd] practisingTwo.

(** A dialogue of [eightTurns] that left out "two" and "apples": the practice
    of these two words with one syllable each. *)
Definition practisingTwoWords : State :=
  run eightTurns "Customer" true
    (aiTurn ++ userSpeaks "I want"
     ++ [ AnalysisSettled 0
            (Parsed (MistakeArray [ {| said := ""; expected := "two" |};
                                    {| said := ""; expected := "apples" |} ])) ]
     ++ aiTurn ++ userSpeaks "Red ones please" ++ [noMistake]
     ++ aiTurn ++ userSpeaks "How much is it" ++ [noMistake]
     ++ aiTurn ++ userSpeaks "Thank you" ++ [noMistake]
     ++ [ BreakdownsSettled 0 (fun _ => Threw) ])%list
    (started eightTurns "Customer").

(** The practice of a word that is only punctuation. *)
Definition practisingBang : State :=
  run twoScript "Customer" true
    (aiTurn ++ userSpeaks "I want two"
     ++ [ oneOmitted "!"; BreakdownsSettled 0 (fun _ => Threw) ])%list
    (started twoScript "Customer").


Definition isEnglish (v : Voice) : bool := Js.startsWith (lang v) "en".

Definition isGoogle (v : Voice) : bool := Js.includes (name v) "Google".

(** An awaited analysis that has sent a request to the service. *)
Definition requested (pa : PendingAnalysis) : Prop :=
  exists request k, pa_job pa = Awaiting request k.

(** Only white space, as [\s*] matches it. *)
Fixpoint allWhiteSpace (s : string) : bool :=
  match s with
  | EmptyString => true
  | String c r => Js.isWhiteSpace c && allWhiteSpace r
  end.

Definition backquote : ascii := ascii_of_nat 96.

(** A reply of the service wrapped in a code fence tagged [json]. *)
Definition fenced (pre ws1 body ws2 post : string) : string :=
  pre ++ fence ++ "json" ++ ws1 ++ body ++ ws2 ++ fence ++ post.

(** The bracketed text [[inner]]. *)
Definition bracketed (inner : string) : string :=
  "[" ++ inner ++ "]".

(** The levels completed are ahead of the games started after the first,
    by one more while the completion screen is due. *)
Definition levelsAhead (s : App.State) : Prop :=
  App.gameKey s + (if App.isFinished s then 1 else 0) <= App.currentLevel s.

(** * Verification *)

(** Reduce the projections of updated states, and nothing else: in the
    goal, or in the goal and the hypotheses. *)
Ltac fields :=
  cbn [step currentTurn isAiSpeaking isRecognitionActive recognitionError
       matchedWordCount mistakes isAnalyzing practiceWords
       currentPracticeWordIndex practiceStatus practiceTranscript
       hasProcessedTurn speechTimeout mistakesVersion startMicTimeout
       aiTimeout utterances analyses preparing successTimeouts submissions
       captureStarts practiceStarts completions set_step set_currentTurn
       set_isAiSpeaking set_isRecognitionActive set_recognitionError
       set_matchedWordCount set_mistakes set_isAnalyzing set_practiceWords
       set_currentPracticeWordIndex set_practiceStatus set_practiceTranscript
       set_hasProcessedTurn set_speechTimeout set_mistakesVersion
       set_startMicTimeout set_aiTimeout set_utterances set_analyses
       set_preparing set_successTimeouts set_submissions set_captureStarts
       set_practiceStarts set_completions].

Ltac fields_everywhere :=
  cbn [step currentTurn isAiSpeaking isRecognitionActive recognitionError
       matchedWordCount mistakes isAnalyzing practiceWords
       currentPracticeWordIndex practiceStatus practiceTranscript
       hasProcessedTurn speechTimeout mistakesVersion startMicTimeout
       aiTimeout utterances analyses preparing successTimeouts submissions
       captureStarts practiceStarts completions set_step set_currentTurn
       set_isAiSpeaking set_isRecognitionActive set_recognitionError
       set_matchedWordCount set_mistakes set_isAnalyzing set_practiceWords
       set_currentPracticeWordIndex set_practiceStatus set_practiceTranscript
       set_hasProcessedTurn set_speechTimeout set_mistakesVersion
       set_startMicTimeout set_aiTimeout set_utterances set_analyses
       set_preparing set_successTimeouts set_submissions set_captureStarts
       set_practiceStarts set_completions] in *.

(** Case analysis on the first [if] or [match] scrutinee of the goal. *)
Ltac split_branch :=
  match goal with
  | |- context [if ?b then _ else _] => destruct b eqn:?
  | |- context [match ?x with _ => _ end] => destruct x eqn:?
  end.

Ltac effects_crush :=
  unfold commit, turnEffect, prepEffect; fields;
  repeat (split_branch; fields); try reflexivity.

(** ** Facts about the string primitives *)

Section StringFacts.

Lemma startsWith_app (sub rest : string) :
  Js.startsWith (sub ++ rest) sub = true.
Proof.
  induction sub as [|a sub IH]; simpl.
  - reflexivity.
  - now rewrite Ascii.eqb_refl, IH.
Qed.

Lemma startsWith_inv (s sub : string) :
  Js.startsWith s sub = true -> exists rest, s = sub ++ rest.
Proof.
  revert s; induction sub as [|a sub IH]; intros s H.
  - now exists s.
  - destruct s as [|b s]; simpl in H; [discriminate|].
    apply andb_true_iff in H as [Hab Hs].
    apply Ascii.eqb_eq in Hab; subst b.
    destruct (IH _ Hs) as [rest ->].
    now exists rest.
Qed.

Lemma includes_here (s sub : string) :
  Js.startsWith s sub = true -> Js.includes s sub = true.
Proof. intros H. destruct s; simpl; rewrite H; reflexivity. Qed.

Lemma includes_app (pre sub post : string) :
  Js.includes (pre ++ sub ++ post) sub = true.
Proof.
  induction pre as [|c pre IH]; simpl.
  - apply includes_here, startsWith_app.
  - rewrite IH. apply orb_true_r.
Qed.

Lemma includes_inv (s sub : string) :
  Js.includes s sub = true -> exists pre post, s = pre ++ sub ++ post.
Proof.
  induction s as [|c s IH]; simpl; intros H.
  - rewrite orb_false_r in H. apply startsWith_inv in H as [rest ->].
    now exists EmptyString, rest.
  - apply orb_true_iff in H as [H|H].
    + apply startsWith_inv in H as [rest E].
      exists EmptyString, rest. exact E.
    + destruct (IH H) as (pre & post & ->).
      now exists (String c pre), post.
Qed.

(** [includes] is exactly: the argument occurs as a contiguous block. *)
Lemma includes_spec (s sub : string) :
  Js.includes s sub = true <-> exists pre post, s = pre ++ sub ++ post.
Proof.
  split.
  - apply includes_inv.
  - intros (pre & post & ->). apply includes_app.
Qed.

(** Splitting what was joined from separator-free pieces gives the pieces
    back. *)
Lemma split_join (sep : ascii) (ws : list string) :
  ws <> [] -> forallb (Js.lacks sep) ws = true ->
  Js.split sep (Js.join sep ws) = ws.
Proof.
  induction ws as [|w ws IH]; [congruence|].
  intros _ H. simpl in H. apply andb_true_iff in H as [Hw Hws].
  destruct ws as [|w' ws].
  - simpl. clear IH Hws.
    induction w as [|c w IHw]; simpl; [reflexivity|].
    simpl in Hw. apply andb_true_iff in Hw as [Hc Hw].
    apply negb_true_iff in Hc. rewrite Hc, (IHw Hw). reflexivity.
  - assert (IH' := IH ltac:(discriminate) Hws). clear IH.
    change (Js.join sep (w :: w' :: ws))
      with (w ++ String sep (Js.join sep (w' :: ws))).
    remember (Js.join sep (w' :: ws)) as tail eqn:Etail.
    remember (w' :: ws) as pieces eqn:Epieces.
    clear Etail Epieces Hws.
    induction w as [|c w IHw]; simpl.
    + rewrite Ascii.eqb_refl, IH'. reflexivity.
    + simpl in Hw. apply andb_true_iff in Hw as [Hc Hw].
      apply negb_true_iff in Hc.
      rewrite Hc, (IHw Hw). reflexivity.
Qed.

End StringFacts.

(** ** Effects leave the handlers' results in place *)

Section CommitFacts.

Variable script : list ScriptLine.
Variable selectedCharacter : string.

Lemma commit_step a b :
  step (commit script selectedCharacter a b) = step b.
Proof. effects_crush. Qed.

Lemma commit_currentTurn a b :
  currentTurn (commit script selectedCharacter a b) = currentTurn b.
Proof. effects_crush. Qed.

Lemma commit_mistakes a b :
  mistakes (commit script selectedCharacter a b) = mistakes b.
Proof. effects_crush. Qed.

Lemma commit_recognitionError a b :
  recognitionError (commit script selectedCharacter a b) = recognitionError b.
Proof. effects_crush. Qed.

Lemma commit_isRecognitionActive a b :
  isRecognitionActive (commit script selectedCharacter a b)
  = isRecognitionActive b.
Proof. effects_crush. Qed.

Lemma commit_hasProcessedTurn a b :
  hasProcessedTurn (commit script selectedCharacter a b) = hasProcessedTurn b.
Proof. effects_crush. Qed.

Lemma commit_submissions a b :
  submissions (commit script selectedCharacter a b) = submissions b.
Proof. effects_crush. Qed.

Lemma commit_captureStarts a b :
  captureStarts (commit script selectedCharacter a b) = captureStarts b.
Proof. effects_crush. Qed.

Lemma commit_practiceStatus a b :
  practiceStatus (commit script selectedCharacter a b) = practiceStatus b.
Proof. effects_crush. Qed.

Lemma commit_practiceStarts a b :
  practiceStarts (commit script selectedCharacter a b) = practiceStarts b.
Proof. effects_crush. Qed.

Lemma commit_practiceWords a b :
  practiceWords (commit script selectedCharacter a b) = practiceWords b.
Proof. effects_crush. Qed.

Lemma commit_currentPracticeWordIndex a b :
  currentPracticeWordIndex (commit script selectedCharacter a b)
  = currentPracticeWordIndex b.
Proof. effects_crush. Qed.

Lemma Step_eqb_refl (a : Step) : Step_eqb a a = true.
Proof. now destruct a. Qed.

Lemma optString_eqb_refl (a : option string) : optString_eqb a a = true.
Proof. destruct a; simpl; [apply String.eqb_refl | reflexivity]. Qed.

(** No dependency changed: no effect runs. *)
Lemma commit_same_deps a b :
  step b = step a -> currentTurn b = currentTurn a ->
  mistakesVersion b = mistakesVersion a ->
  recognitionError b = recognitionError a ->
  isAiSpeaking b = isAiSpeaking a ->
  isRecognitionActive b = isRecognitionActive a ->
  commit script selectedCharacter a b = b.
Proof.
  intros Hs Ht Hm He Hp Hr. unfold commit.
  unfold sameTurnDeps, samePrepDeps, sameListenerDeps.
  rewrite Hs, Ht, Hm, He, Hp, Hr.
  rewrite Step_eqb_refl, !Nat.eqb_refl, optString_eqb_refl, !Bool.eqb_reflx.
  reflexivity.
Qed.

End CommitFacts.

(** ** Practice: judging one attempt *)

Section PracticeAttempt.

Variable script : list ScriptLine.
Variable selectedCharacter : string.
Variable hasVoices : bool.

(** Handling a result event while a practice word is current. *)
Lemma practice_result_status (s : State) (transcript : string)
    (target : PracticeWord) :
  nth_error (practiceWords s) (currentPracticeWordIndex s) = Some target ->
  practiceStatus
    (dispatch script selectedCharacter hasVoices (PracticeResult transcript) s)
  = if Js.includes (cleanWord transcript) (cleanWord (word target))
    then SUCCESS else TRY_AGAIN.
Proof.
  intros Hcur. unfold dispatch. rewrite commit_practiceStatus.
  cbn [handle]. unfold practiceResultHandler. fields.
  assert (Hlt : currentPracticeWordIndex s < List.length (practiceWords s)).
  { apply nth_error_Some. congruence. }
  apply Nat.ltb_lt in Hlt as Hidx.
  assert (Hpos : (0 <? List.length (practiceWords s)) = true)
    by (apply Nat.ltb_lt; lia).
  rewrite Hpos, Hidx, Hcur. cbn [andb].
  destruct (Js.includes _ _); reflexivity.
Qed.

(** The attempt moves the cursor nowhere: it only sets the status. *)
Lemma practice_result_index (s : State) (transcript : string) :
  currentPracticeWordIndex
    (dispatch script selectedCharacter hasVoices (PracticeResult transcript) s)
  = currentPracticeWordIndex s.
Proof.
  unfold dispatch. rewrite commit_currentPracticeWordIndex.
  cbn [handle]. unfold practiceResultHandler. fields.
  repeat (split_branch; fields); reflexivity.
Qed.

End PracticeAttempt.

(** C2: a practice attempt on the current word succeeds exactly when the
    normalized transcript contains the normalized target word as a
    substring, and otherwise the status becomes TryAgain; normalization
    ([cleanWord]) is trim, lowercase and removal of [. , ? !].  The
    transcript "I think it's two." contains the word "two" and does not
    contain "three". *)
Theorem C2_attempt_succeeds_iff_contained :
  forall script selectedCharacter hasVoices s transcript target,
    nth_error (practiceWords s) (currentPracticeWordIndex s) = Some target ->
    let s' := dispatch script selectedCharacter hasVoices
                (PracticeResult transcript) s in
    (practiceStatus s' = SUCCESS <->
       exists pre post,
         cleanWord transcript = pre ++ cleanWord (word target) ++ post) /\
    (practiceStatus s' = TRY_AGAIN <->
       ~ exists pre post,
           cleanWord transcript = pre ++ cleanWord (word target) ++ post) /\
    cleanWord "I think it's two." = "i think it's two" /\
    cleanWord "  Two?! " = "two" /\
    Js.includes (cleanWord "I think it's two.") (cleanWord "two") = true /\
    Js.includes (cleanWord "I think it's two.") (cleanWord "three") = false.
Proof.
  intros script sel voices s transcript target Hcur s'.
  assert (Hst := practice_result_status script sel voices s transcript
                   target Hcur).
  fold s' in Hst. rewrite <- includes_spec.
  destruct (Js.includes (cleanWord transcript) (cleanWord (word target)))
    eqn:Hinc; rewrite Hst; repeat split; try congruence; try reflexivity.
Qed.

(** The theorem at the word "two" and the transcript "I think it's two.". *)
Lemma C2_witness :
  practiceStatus
    (dispatch twoScript "Customer" true (PracticeResult "I think it's two.")
       practisingTwo) = SUCCESS.
Proof.
  assert (Hcur : nth_error (practiceWords practisingTwo)
                   (currentPracticeWordIndex practisingTwo)
                 = Some {| word := "two"; phonemes := ["too"] |})
    by (vm_compute; reflexivity).
  pose proof (C2_attempt_succeeds_iff_contained twoScript "Customer" true
                practisingTwo "I think it's two." _ Hcur) as (Hsucc & _).
  apply (proj2 Hsucc). exists "i think it's ", "". reflexivity.
Defined.

(** C10: the match has no word-boundary check.  Whenever the normalized
    target word occurs as a contiguous block of the normalized transcript,
    whatever surrounds it, the attempt is a Success; the target "two"
    matches the transcript "network". *)
Theorem C10_match_ignores_word_boundaries :
  forall script selectedCharacter hasVoices s transcript target pre post,
    nth_error (practiceWords s) (currentPracticeWordIndex s) = Some target ->
    cleanWord transcript = pre ++ cleanWord (word target) ++ post ->
    practiceStatus
      (dispatch script selectedCharacter hasVoices (PracticeResult transcript) s)
    = SUCCESS.
Proof.
  intros script sel voices s transcript target pre post Hcur Hocc.
  rewrite (practice_result_status script sel voices s transcript target Hcur).
  rewrite Hocc, includes_app. reflexivity.
Qed.

(** The theorem at the word "two" inside the transcript "network". *)
Lemma C10_witness :
  practiceStatus
    (dispatch twoScript "Customer" true (PracticeResult "network")
       practisingTwo)
  = SUCCESS.
Proof.
  assert (Hcur : nth_error (practiceWords practisingTwo)
                   (currentPracticeWordIndex practisingTwo)
                 = Some {| word := "two"; phonemes := ["too"] |})
    by (vm_compute; reflexivity).
  assert (Hocc : cleanWord "network" = "ne" ++ cleanWord "two" ++ "rk")
    by (vm_compute; reflexivity).
  exact (C10_match_ignores_word_boundaries twoScript "Customer" true
           practisingTwo "network" _ "ne" "rk" Hcur Hocc).
Defined.

(** ** The words to practice: [new Set] keeps first occurrences *)

Section Deduplication.



Lemma filter_twice {A} (f g : A -> bool) (l : list A) :
  filter f (filter g l) = filter (fun x => g x && f x) l.
Proof.
  induction l as [|a l IH]; simpl; [reflexivity|].
  destruct (g a); simpl; [destruct (f a)|]; now rewrite IH.
Qed.

(** Adding the values of [l] to a set that holds [seen] appends to [seen]
    the first occurrences in [l] of the values not yet seen. *)
Lemma fold_setAdd (l seen : list string) :
  fold_left setAdd l seen = (seen ++ filter (unseen seen) (arrayOfSet l))%list.
Proof.
  revert seen. induction l as [|a l IH]; intros seen.
  - simpl. now rewrite app_nil_r.
  - assert (Hhead : arrayOfSet (a :: l)
                    = a :: filter (unseen [a]) (arrayOfSet l)).
    { unfold arrayOfSet at 1. simpl. unfold setAdd at 2. simpl.
      now rewrite IH. }
    rewrite Hhead. cbn [fold_left]. unfold setAdd at 2.
    destruct (existsb (String.eqb a) seen) eqn:Hmem.
    + assert (Ha : unseen seen a = false) by (unfold unseen; now rewrite Hmem).
      rewrite IH. f_equal. cbn [filter]. rewrite Ha.
      rewrite filter_twice. apply filter_ext. intros y.
      unfold unseen. cbn [existsb]. rewrite orb_false_r.
      destruct (String.eqb_spec y a) as [->|]; [now rewrite Hmem | reflexivity].
    + assert (Ha : unseen seen a = true) by (unfold unseen; now rewrite Hmem).
      rewrite IH, <- app_assoc. f_equal. cbn [filter]. rewrite Ha.
      cbn [app]. f_equal.
      rewrite filter_twice. apply filter_ext. intros y.
      unfold unseen. rewrite existsb_app. cbn [existsb]. rewrite orb_false_r.
      destruct (existsb (String.eqb y) seen), (String.eqb y a); reflexivity.
Qed.

(** The array of a set, value by value. *)
Lemma arrayOfSet_cons (x : string) (l : list string) :
  arrayOfSet (x :: l) = x :: filter (differs x) (arrayOfSet l).
Proof.
  unfold arrayOfSet at 1. simpl. unfold setAdd at 2. simpl.
  rewrite fold_setAdd. simpl. f_equal. apply filter_ext. intros y.
  unfold unseen, differs. simpl. now rewrite orb_false_r.
Qed.

Lemma differs_true (x y : string) : differs x y = true <-> y <> x.
Proof.
  unfold differs. rewrite negb_true_iff.
  destruct (String.eqb_spec y x); split; congruence.
Qed.

Lemma arrayOfSet_In (l : list string) (w : string) :
  In w (arrayOfSet l) <-> In w l.
Proof.
  induction l as [|x l IH]; [reflexivity|].
  rewrite arrayOfSet_cons. simpl. rewrite filter_In, differs_true, IH.
  destruct (string_dec x w); intuition congruence.
Qed.

Lemma arrayOfSet_NoDup (l : list string) : NoDup (arrayOfSet l).
Proof.
  induction l as [|x l IH]; [constructor|].
  rewrite arrayOfSet_cons. constructor.
  - rewrite filter_In, differs_true. intuition congruence.
  - now apply NoDup_filter.
Qed.

(** A filtered list keeps its elements in the order of the original. *)
Lemma filter_app_inv {A} (f : A -> bool) (u a b : list A) :
  filter f u = (a ++ b)%list ->
  exists u1 u2, u = (u1 ++ u2)%list /\ filter f u1 = a /\ filter f u2 = b.
Proof.
  revert a. induction u as [|c u IH]; intros a H.
  - simpl in H. symmetry in H. apply app_eq_nil in H as [-> ->].
    now exists [], [].
  - simpl in H. destruct (f c) eqn:Hc.
    + destruct a as [|a0 a].
      * exists [], (c :: u). simpl. rewrite Hc. auto.
      * simpl in H. injection H as -> H.
        destruct (IH _ H) as (u1 & u2 & -> & <- & <-).
        exists (a0 :: u1), u2. simpl. rewrite Hc. auto.
    + destruct (IH _ H) as (u1 & u2 & -> & <- & <-).
      exists (c :: u1), u2. simpl. rewrite Hc. auto.
Qed.

Lemma filter_cons_inv {A} (f : A -> bool) (u b : list A) (x : A) :
  filter f u = x :: b ->
  exists u1 u2, u = (u1 ++ x :: u2)%list /\ filter f u2 = b.
Proof.
  induction u as [|c u IH]; intros H; [discriminate|].
  simpl in H. destruct (f c) eqn:Hc.
  - injection H as -> H. now exists [], u.
  - destruct (IH H) as (u1 & u2 & -> & <-). now exists (c :: u1), u2.
Qed.

Lemma filter_keeps_order {A} (f : A -> bool) (u l1 l2 l3 : list A) (x y : A) :
  filter f u = (l1 ++ x :: l2 ++ y :: l3)%list ->
  exists m1 m2 m3, u = (m1 ++ x :: m2 ++ y :: m3)%list.
Proof.
  intros H.
  apply filter_app_inv in H as (u1 & u2 & -> & _ & H).
  apply filter_cons_inv in H as (v1 & v2 & -> & H).
  apply filter_app_inv in H as (w1 & w2 & -> & _ & H).
  apply filter_cons_inv in H as (z1 & z2 & -> & _).
  exists (u1 ++ v1)%list, (w1 ++ z1)%list, z2.
  now rewrite <- !app_assoc.
Qed.

(** First-occurrence order: when [x] stands before [y] in the array of the
    set, the first [x] of the input comes before every [y] of the input. *)
Lemma arrayOfSet_order (l l1 l2 l3 : list string) (x y : string) :
  arrayOfSet l = (l1 ++ x :: l2 ++ y :: l3)%list ->
  exists p q, l = (p ++ x :: q)%list /\ ~ In x p /\ ~ In y p.
Proof.
  revert l1 l2 l3. induction l as [|a l IH]; intros l1 l2 l3 H.
  - destruct l1; discriminate.
  - rewrite arrayOfSet_cons in H. destruct l1 as [|b l1].
    + simpl in H. injection H as -> _. exists [], l. simpl. auto.
    + simpl in H. injection H as <- H.
      assert (Hx : In x (filter (differs a) (arrayOfSet l))).
      { rewrite H. apply in_or_app. right. now left. }
      assert (Hy : In y (filter (differs a) (arrayOfSet l))).
      { rewrite H. apply in_or_app. right. right.
        apply in_or_app. right. now left. }
      apply filter_In in Hx as [_ Hx]. apply differs_true in Hx.
      apply filter_In in Hy as [_ Hy]. apply differs_true in Hy.
      apply filter_keeps_order in H as (m1 & m2 & m3 & H).
      destruct (IH _ _ _ H) as (p & q & -> & Hxp & Hyp).
      exists (a :: p), q. simpl. intuition congruence.
Qed.

End Deduplication.


(** C3, as stated, fails: the words are deduplicated as they are, not in
    their cleaned form, so "Two" and "two" both become practice words and
    the cleaned word "two" appears twice. *)
Lemma C3_counterexample :
  ~ NoDup (map cleanWord
             (map word (practiceWordsOf (fun _ => Threw) mistakesTwoTwice))).
Proof.
  vm_compute. intros H. inversion H as [|x l Hnin _]; subst.
  apply Hnin. now left.
Qed.

(** C3, amended: the practice words are built from the non-empty [expected]
    values, deduplicated by exact string equality (no cleaning), each
    distinct value once and in first-occurrence order; a practice word whose
    phoneme sequence is empty is dropped. *)
Theorem C3_practice_words_distinct_in_first_occurrence_order :
  forall (replies : string -> attempt json) (mistakes : list Mistake),
    let raw := filter Js.truthy (map expected mistakes) in
    let words := wordsToPractice mistakes in
    NoDup words /\
    (forall w, In w words <->
               w <> "" /\ exists m, In m mistakes /\ expected m = w) /\
    (forall l1 x l2 y l3,
        words = (l1 ++ x :: l2 ++ y :: l3)%list ->
        exists p q, raw = (p ++ x :: q)%list /\ ~ In x p /\ ~ In y p) /\
    practiceWordsOf replies mistakes
    = filter (fun p => 0 <? List.length (phonemes p))
        (map (fun w => {| word := w;
                          phonemes := resolve (getPhoneticBreakdown w) (replies w) |})
           words) /\
    (forall p, In p (practiceWordsOf replies mistakes) -> phonemes p <> []).
Proof.
  intros replies ms raw words.
  split; [apply arrayOfSet_NoDup|].
  split; [|split; [|split]].
  - intros w. unfold words, wordsToPractice.
    rewrite arrayOfSet_In, filter_In, in_map_iff. split.
    + intros [(m & Hm & Hin) Hw]. split.
      * intros ->. discriminate.
      * now exists m.
    + intros (Hne & m & Hin & Hm). split.
      * now exists m.
      * destruct w; [congruence | reflexivity].
  - intros l1 x l2 y l3 H. exact (arrayOfSet_order raw l1 l2 l3 x y H).
  - reflexivity.
  - intros p H Hnil. unfold practiceWordsOf in H.
    apply filter_In in H as [_ H]. unfold hasPhonemes in H.
    rewrite Hnil in H. discriminate.
Qed.

(** ** The analyzer and the phonetic breakdown *)


(** C5: when the spoken text is empty or only white space, no request is
    sent to the analyzer service and the mistakes are one entry per word of
    the target line (the pieces between its spaces), each with [said] empty
    and [expected] that word; a user turn submitted with such a text adds
    exactly these entries to the accumulated mistakes. *)
Theorem C5_blank_speech_is_full_omission :
  forall spokenText targetText,
    Js.trim spokenText = "" ->
    requests (analyzeReadingWithAI spokenText targetText) = [] /\
    (forall reply,
        resolve (analyzeReadingWithAI spokenText targetText) reply
        = map omitted (Js.split " " targetText)) /\
    (forall words reply,
        words <> [] -> forallb (Js.lacks " ") words = true ->
        targetText = Js.join " " words ->
        resolve (analyzeReadingWithAI spokenText targetText) reply
        = map omitted words) /\
    (forall script s target reply,
        hasProcessedTurn s = false ->
        nth_error script (currentTurn s) = Some target ->
        line target = targetText ->
        let s1 := processUserTurn script spokenText s in
        submissions s1 = submissions s /\
        exists pa,
          analyses s1 = (analyses s ++ [pa])%list /\
          mistakes (processUserTurn_resume script (pa_closure pa)
                      (resolve (pa_job pa) reply) s1)
          = (mistakes s ++ map omitted (Js.split " " targetText))%list).
Proof.
  intros spoken target Hblank.
  assert (Hjob : analyzeReadingWithAI spoken target
                 = Resolved (map omitted (Js.split " " target))).
  { unfold analyzeReadingWithAI. rewrite Hblank. reflexivity. }
  rewrite Hjob. split; [reflexivity|]. split; [reflexivity|]. split.
  - intros words reply Hne Hfree ->. cbn [resolve].
    now rewrite split_join.
  - intros script s tgt reply Hguard Hline Htgt s1.
    unfold s1, processUserTurn. rewrite Hguard. fields.
    rewrite Hline, Htgt, Hjob. fields. cbn [requests map].
    rewrite app_nil_r. split; [reflexivity|].
    eexists. split; [reflexivity|].
    unfold processUserTurn_resume. fields. cbn [pa_closure pa_job cl_mistakes resolve].
    destruct (beforeLastTurn _ _); reflexivity.
Qed.

(** The scenario of the specification: nothing said against the target line
    "Can I help you" gives four mistakes, one per word. *)
Lemma C5_witness :
  requests (analyzeReadingWithAI "" "Can I help you") = [] /\
  resolve (analyzeReadingWithAI "" "Can I help you") Threw
  = [omitted "Can"; omitted "I"; omitted "help"; omitted "you"].
Proof.
  pose proof (C5_blank_speech_is_full_omission "" "Can I help you" eq_refl)
    as (Hnone & Hall & _).
  split; [exact Hnone | exact (Hall Threw)].
Defined.



(** C9: when the analyzer call fails the turn has no mistakes, and when the
    phonetic breakdown of a word fails the word is its own single syllable;
    neither failure blocks the session: the turn that awaited the analysis
    is closed with the mistakes it started with, and the practice starts
    with every word kept. *)
Theorem C9_service_failures_degrade :
  (forall spokenText targetText,
      Js.truthy (Js.trim spokenText) = true ->
      resolve (analyzeReadingWithAI spokenText targetText) Threw = []) /\
  (forall w, resolve (getPhoneticBreakdown w) Threw = [w]) /\
  (forall script selectedCharacter hasVoices s i pa,
      nth_error (analyses s) i = Some pa ->
      resolve (pa_job pa) Threw = [] ->
      let s' := dispatch script selectedCharacter hasVoices
                  (AnalysisSettled i Threw) s in
      mistakes s' = cl_mistakes (pa_closure pa) /\
      if beforeLastTurn script (cl_currentTurn (pa_closure pa))
      then currentTurn s' = S (currentTurn s) /\ step s' = step s
      else step s' = PRACTICE_PREP \/ step s' = COMPLETE) /\
  (forall script selectedCharacter hasVoices s i words,
      nth_error (preparing s) i = Some words ->
      let s' := dispatch script selectedCharacter hasVoices
                  (BreakdownsSettled i (fun _ => Threw)) s in
      step s' = PRACTICE /\
      practiceWords s'
      = map (fun w => {| word := w; phonemes := [w] |}) words).
Proof.
  split; [|split; [|split]].
  - intros spoken target Hsaid. unfold analyzeReadingWithAI.
    rewrite Hsaid. reflexivity.
  - reflexivity.
  - intros script sel voices s i pa Hpa Hnone s'. unfold s', dispatch.
    rewrite commit_mistakes, commit_currentTurn, commit_step.
    cbn [handle]. rewrite Hpa, Hnone. unfold processUserTurn_resume.
    rewrite app_nil_r.
    destruct (beforeLastTurn script _); fields.
    + auto.
    + split; [reflexivity|]. destruct (0 <? _); auto.
  - intros script sel voices s i words Hw s'. unfold s', dispatch.
    rewrite commit_step, commit_practiceWords.
    cbn [handle]. rewrite Hw. unfold preparePractice_resume. fields.
    split; [reflexivity|].
    unfold phoneticData. cbn [resolve getPhoneticBreakdown].
    induction words as [|w ws IH] in |- *; [reflexivity|].
    cbn [map filter]. unfold hasPhonemes at 1. cbn [phonemes List.length Nat.ltb Nat.leb].
    now rewrite IH.
Qed.

(** The theorem at a failed analysis of the awaited turn 1 of [eightTurns],
    and at a failed breakdown of "cat". *)
Lemma C9_witness :
  resolve (analyzeReadingWithAI "I want two apples" "I want two apples")
    Threw = [] /\
  currentTurn
    (dispatch eightTurns "Customer" true (AnalysisSettled 0 Threw)
       turnOneAwaited) = 2 /\
  practiceWords
    (dispatch shortScript "Customer" true
       (BreakdownsSettled 0 (fun _ => Threw)) awaitingBreakdowns)
  = [ {| word := "cat"; phonemes := ["cat"] |} ].
Proof.
  destruct C9_service_failures_degrade as (Hanalysis & _ & Hturn & Hprep).
  split; [|split].
  - apply Hanalysis. vm_compute. reflexivity.
  - set (pa := {| pa_closure := {| cl_currentTurn := 1; cl_mistakes := [] |};
                  pa_job := analyzeReadingWithAI "I want two apples"
                              "I want two apples" |}).
    assert (Hpa : nth_error (analyses turnOneAwaited) 0 = Some pa)
      by (vm_compute; reflexivity).
    assert (Hnone : resolve (pa_job pa) Threw = [])
      by (vm_compute; reflexivity).
    assert (Hturn1 : currentTurn turnOneAwaited = 1)
      by (vm_compute; reflexivity).
    pose proof (Hturn eightTurns "Customer" true turnOneAwaited 0 pa Hpa Hnone)
      as [_ Hnext].
    change (beforeLastTurn eightTurns (cl_currentTurn (pa_closure pa)))
      with true in Hnext.
    destruct Hnext as [Hnext _]. rewrite Hnext, Hturn1. reflexivity.
  - assert (Hwords : nth_error (preparing awaitingBreakdowns) 0 = Some ["cat"])
      by (vm_compute; reflexivity).
    exact (proj2 (Hprep shortScript "Customer" true awaitingBreakdowns 0 _
                    Hwords)).
Defined.

(** ** The per-word practice state machine *)

Section PracticeMachine.

Variable script : list ScriptLine.
Variable selectedCharacter : string.
Variable hasVoices : bool.

Local Notation "e '>>' s" := (dispatch script selectedCharacter hasVoices e s)
  (at level 60, right associativity, only parsing).

(** The trigger outside Idle changes nothing at all. *)
Lemma trigger_rejected (s : State) (o : StartOutcome) :
  practiceStatus s <> IDLE -> ListenTrigger o >> s = s.
Proof.
  intros Hst. unfold dispatch. cbn [handle]. unfold startPracticeRecognition.
  destruct (practiceStatus s); try congruence; cbn [PracticeStatus_eqb negb];
    now apply commit_same_deps.
Qed.

Lemma trigger_from_idle (s : State) :
  practiceStatus s = IDLE ->
  practiceStatus (ListenTrigger Started >> s) = LISTENING /\
  practiceStarts (ListenTrigger Started >> s) = S (practiceStarts s).
Proof.
  intros Hst. unfold dispatch.
  rewrite commit_practiceStatus, commit_practiceStarts.
  cbn [handle]. unfold startPracticeRecognition. rewrite Hst.
  split; reflexivity.
Qed.

(** From Idle, only the trigger and a capture result change the status. *)
Lemma leaving_idle (s : State) (e : Event) :
  practiceStatus s = IDLE ->
  practiceStatus (e >> s) <> IDLE ->
  (exists o, e = ListenTrigger o) \/ (exists t, e = PracticeResult t).
Proof.
  intros Hst Hout.
  destruct e; try (left; eexists; reflexivity); try (right; eexists; reflexivity);
    exfalso; apply Hout; unfold dispatch; rewrite commit_practiceStatus;
    cbn [handle];
    unfold startRecognition, speak, handleAiTurnEnd, listening, handleStart,
      handleEnd, handleResult, handleError, silenceElapsed, processUserTurn,
      processUserTurn_resume, preparePractice_resume, practiceHandleError,
      practiceHandleEnd, successElapsed;
    fields; repeat (split_branch; fields); try assumption; try reflexivity;
    try (rewrite Hst; reflexivity).
Qed.

Lemma end_keeps_try_again (s : State) :
  practiceStatus s = TRY_AGAIN -> practiceStatus (PracticeEnd >> s) = TRY_AGAIN.
Proof.
  intros Hst. unfold dispatch. rewrite commit_practiceStatus.
  cbn [handle]. unfold practiceHandleEnd. fields. now rewrite Hst.
Qed.

End PracticeMachine.


(** C4, evaluated where it fails.  In the practice of "two" the trigger
    takes Idle to Listening, the answer "three" sets TryAgain with the
    cursor unchanged, and the end of the capture leaves TryAgain, all as the
    claim says.  A new trigger there, whatever [start()] would do, is
    rejected like in every status but Idle: the state is unchanged, no
    capture is started, and any number of triggers leaves the status
    TryAgain, so the word cannot be retried. *)
Theorem C4_retry_trigger_rejected :
  let fire e s := dispatch twoScript "Customer" true e s in
  let heard := fire (ListenTrigger Started) practisingTwo in
  let answered := fire (PracticeResult "three") heard in
  (practiceStatus practisingTwo = IDLE /\
   practiceStatus heard = LISTENING /\
   practiceStarts heard = S (practiceStarts practisingTwo)) /\
  (practiceStatus answered = TRY_AGAIN /\
   currentPracticeWordIndex answered
   = currentPracticeWordIndex practisingTwo) /\
  (fire PracticeEnd answered = afterWrongAnswer /\
   practiceStatus afterWrongAnswer = TRY_AGAIN) /\
  (forall o, fire (ListenTrigger o) afterWrongAnswer = afterWrongAnswer) /\
  (forall outcomes,
      run twoScript "Customer" true (map ListenTrigger outcomes)
        afterWrongAnswer = afterWrongAnswer).
Proof.
  cbv zeta.
  assert (Hagain : practiceStatus afterWrongAnswer <> IDLE)
    by (vm_compute; discriminate).
  split; [vm_compute; repeat split|].
  split; [vm_compute; repeat split|].
  split; [vm_compute; repeat split|].
  split.
  - intros o. now apply trigger_rejected.
  - intros outcomes. induction outcomes as [|o outcomes IH]; [reflexivity|].
    cbn [map run fold_left].
    rewrite (trigger_rejected twoScript "Customer" true afterWrongAnswer o
               Hagain).
    exact IH.
Qed.

(** ** Entering the practice *)

Section PracticePreparation.

Variable script : list ScriptLine.
Variable selectedCharacter : string.
Variable hasVoices : bool.

(** When a handler moves [step] to [PRACTICE_PREP], the preparation effect
    is the one effect that touches the completion count and the awaited
    preparations. *)
Lemma commit_enters_prep (before after : State) :
  step before <> PRACTICE_PREP -> step after = PRACTICE_PREP ->
  completions (commit script selectedCharacter before after)
  = completions (prepEffect after) /\
  preparing (commit script selectedCharacter before after)
  = preparing (prepEffect after).
Proof.
  intros Hb Ha. unfold commit, samePrepDeps, turnEffect.
  assert (Hne : Step_eqb (step before) (step after) = false).
  { rewrite Ha. destruct (step before); try reflexivity. congruence. }
  rewrite Hne. cbn [andb]. unfold prepEffect. fields.
  repeat (split_branch; fields_everywhere); try rewrite Ha in *; try discriminate;
    try congruence; split; reflexivity.
Qed.

Lemma prepEffect_spec (s : State) :
  step s = PRACTICE_PREP ->
  (wordsToPractice (mistakes s) = [] ->
     completions (prepEffect s) = S (completions s) /\
     preparing (prepEffect s) = preparing s) /\
  (wordsToPractice (mistakes s) <> [] ->
     completions (prepEffect s) = completions s /\
     preparing (prepEffect s)
     = (preparing s ++ [wordsToPractice (mistakes s)])%list).
Proof.
  intros Hs. unfold prepEffect. rewrite Hs. cbn [Step_eqb].
  destruct (wordsToPractice (mistakes s)) as [|w ws]; cbn [List.length Nat.eqb];
    fields; split; intros H; try congruence; split; reflexivity.
Qed.

(** The dialogue hands over to the preparation through the end of an
    analysis or of an utterance, which leave both counts alone. *)
Lemma handover_events (e : Event) (s : State) :
  step s = GAME ->
  step (handle script hasVoices e s) = PRACTICE_PREP ->
  completions (handle script hasVoices e s) = completions s /\
  preparing (handle script hasVoices e s) = preparing s.
Proof.
  intros Hs. destruct e; cbn [handle];
    unfold startRecognition, speak, handleAiTurnEnd, listening, handleStart,
      handleEnd, handleResult, handleError, silenceElapsed, processUserTurn,
      processUserTurn_resume, preparePractice_resume, practiceHandleError,
      practiceHandleEnd, successElapsed, startPracticeRecognition,
      practiceResultHandler;
    fields; repeat (split_branch; fields); intros H;
    try (rewrite Hs in H; discriminate); try discriminate;
    split; reflexivity.
Qed.

End PracticePreparation.



(** C7, as stated, fails: when the practice words are empty only because
    every phoneme sequence was empty, the component enters [PRACTICE] with
    no word and does not signal completion. *)
Lemma C7_counterexample :
  practiceWords emptyBreakdownRun = [] /\
  step emptyBreakdownRun = PRACTICE /\
  completions emptyBreakdownRun = 0.
Proof. vm_compute. repeat split. Qed.

(** C7, amended: when the deduplicated list of non-empty expected words is
    empty, entering the preparation signals overall completion at once and
    awaits no breakdown, so the practice is not entered; otherwise the
    breakdowns are awaited and the practice is then entered with the
    filtered words without a completion signal, even when no word is left. *)
Theorem C7_completion_when_no_word_to_practice :
  forall script selectedCharacter hasVoices e s,
    step s = GAME ->
    let s' := dispatch script selectedCharacter hasVoices e s in
    step s' = PRACTICE_PREP ->
    (wordsToPractice (mistakes s') = [] ->
       completions s' = S (completions s) /\ preparing s' = preparing s) /\
    (wordsToPractice (mistakes s') <> [] ->
       completions s' = completions s /\
       preparing s' = (preparing s ++ [wordsToPractice (mistakes s')])%list /\
       forall replies,
         let s'' := dispatch script selectedCharacter hasVoices
                      (BreakdownsSettled (List.length (preparing s)) replies) s' in
         step s'' = PRACTICE /\
         practiceWords s'' = practiceWordsOf replies (mistakes s') /\
         completions s'' = completions s).
Proof.
  intros script sel voices e s Hgame s' Hprep.
  unfold s', dispatch in Hprep. rewrite commit_step in Hprep.
  destruct (handover_events script voices e s Hgame Hprep) as [Hc Hp].
  assert (Hne : step s <> PRACTICE_PREP) by (rewrite Hgame; discriminate).
  destruct (commit_enters_prep script sel s _ Hne Hprep) as [Hc' Hp'].
  destruct (prepEffect_spec _ Hprep) as [Hempty Hsome].
  assert (Hm : mistakes s' = mistakes (handle script voices e s)).
  { unfold s', dispatch. apply commit_mistakes. }
  fold (dispatch script sel voices e s) in Hc', Hp'. fold s' in Hc', Hp'.
  rewrite Hm. split.
  - intros Hnil. destruct (Hempty Hnil) as [H1 H2]. split; congruence.
  - intros Hwords. destruct (Hsome Hwords) as [H1 H2].
    split; [congruence|]. split; [congruence|].
    intros replies s''. unfold s'', dispatch.
    rewrite commit_step, commit_practiceWords.
    assert (Hcur : nth_error (preparing s') (List.length (preparing s))
                   = Some (wordsToPractice (mistakes (handle script voices e s)))).
    { rewrite Hp', H2, Hp, nth_error_app2, Nat.sub_diag by lia. reflexivity. }
    cbn [handle]. rewrite Hcur. unfold preparePractice_resume. fields.
    split; [reflexivity|]. split; [reflexivity|].
    unfold commit, turnEffect, prepEffect. fields.
    repeat (split_branch; fields); try discriminate; congruence.
Qed.


(** The theorem at the end of that dialogue: with only an inserted word as
    mistake there is nothing to practice and completion is signalled; with
    "cat" omitted the breakdown of "cat" is awaited. *)
Lemma C7_witness :
  completions
    (dispatch shortScript "Customer" true
       (AnalysisSettled 0
          (Parsed (MistakeArray [ {| said := "um"; expected := "" |} ])))
       lastTurnAwaited) = 1 /\
  preparing
    (dispatch shortScript "Customer" true (oneOmitted "cat") lastTurnAwaited)
  = [["cat"]].
Proof.
  assert (Hgame : step lastTurnAwaited = GAME) by (vm_compute; reflexivity).
  split.
  - set (e := AnalysisSettled 0
                (Parsed (MistakeArray [ {| said := "um"; expected := "" |} ]))).
    assert (Hprep : step (dispatch shortScript "Customer" true e lastTurnAwaited)
                    = PRACTICE_PREP) by (vm_compute; reflexivity).
    assert (Hnone : wordsToPractice
                      (mistakes (dispatch shortScript "Customer" true e
                                   lastTurnAwaited)) = [])
      by (vm_compute; reflexivity).
    destruct (C7_completion_when_no_word_to_practice shortScript "Customer"
                true e lastTurnAwaited Hgame Hprep) as [Hdone _].
    destruct (Hdone Hnone) as [Hcount _].
    rewrite Hcount. vm_compute. reflexivity.
  - set (e := oneOmitted "cat").
    assert (Hprep : step (dispatch shortScript "Customer" true e lastTurnAwaited)
                    = PRACTICE_PREP) by (vm_compute; reflexivity).
    assert (Hsome : wordsToPractice
                      (mistakes (dispatch shortScript "Customer" true e
                                   lastTurnAwaited)) <> [])
      by (vm_compute; discriminate).
    destruct (C7_completion_when_no_word_to_practice shortScript "Customer"
                true e lastTurnAwaited Hgame Hprep) as [_ Hwait].
    destruct (Hwait Hsome) as (_ & Hqueue & _).
    rewrite Hqueue. vm_compute. reflexivity.
Defined.

(** ** Closing the dialogue *)


Section DialogueClose.

Variable script : list ScriptLine.
Variable selectedCharacter : string.
Variable hasVoices : bool.

Lemma settled_handle (e : Event) (s : State) :
  settled s ->
  settled (handle script hasVoices e s) /\
  mistakesVersion (handle script hasVoices e s) = mistakesVersion s.
Proof.
  intros (H1 & H2 & H3 & H4 & H5 & H6). unfold settled.
  destruct e; cbn [handle]; unfold listening;
    rewrite ?H1, ?H2, ?H3, ?H4, ?H5, ?H6; cbn [Step_eqb];
    try (destruct i; cbn [nth_error]);
    unfold startRecognition, practiceHandleError, practiceHandleEnd,
      startPracticeRecognition, practiceResultHandler, successElapsed;
    fields; repeat (split_branch; fields); auto 10.
Qed.

Lemma settled_commit (a b : State) :
  settled b -> mistakesVersion b = mistakesVersion a -> step a = step b ->
  settled (commit script selectedCharacter a b).
Proof.
  intros (H1 & H2 & H3 & H4 & H5 & H6) Hv Hs. unfold settled, commit.
  unfold samePrepDeps. rewrite Hs, Hv, Step_eqb_refl, Nat.eqb_refl. cbn [andb].
  unfold turnEffect. fields.
  repeat (split_branch; fields_everywhere); rewrite ?H1 in *; try discriminate;
    auto 10.
Qed.

Lemma settled_dispatch (e : Event) (s : State) :
  settled s -> settled (dispatch script selectedCharacter hasVoices e s).
Proof.
  intros Hs. destruct (settled_handle e s Hs) as [Hh Hv].
  unfold dispatch. apply settled_commit; [assumption | assumption |].
  destruct Hs as (-> & _). destruct Hh as (-> & _). reflexivity.
Qed.

(** Once settled, the session stays complete whatever happens. *)
Lemma settled_run (events : list Event) (s : State) :
  settled s -> settled (run script selectedCharacter hasVoices events s).
Proof.
  revert s. induction events as [|e events IH]; intros s Hs; [exact Hs|].
  cbn [run fold_left]. apply IH, settled_dispatch, Hs.
Qed.

(** A handler that moves [step] from [GAME] to [COMPLETE]: the effects clear
    the timers of the dialogue and start no preparation. *)
Lemma commit_completes (before after : State) :
  step before = GAME -> step after = COMPLETE ->
  analyses after = [] -> utterances after = [] -> preparing after = [] ->
  settled (commit script selectedCharacter before after).
Proof.
  intros Hb Ha H2 H3 H4. unfold settled, commit.
  unfold sameTurnDeps, samePrepDeps, sameListenerDeps.
  rewrite Hb, Ha. cbn [Step_eqb andb]. unfold turnEffect, prepEffect. fields.
  rewrite Ha. cbn [Step_eqb negb orb]. fields.
  rewrite Ha. cbn [Step_eqb]. fields. auto 10.
Qed.

End DialogueClose.

(** The close-out when nothing is stale: with one analysis awaited for the
    final turn, or with the final utterance holding the current mistakes,
    the dialogue closes out into PracticePrep if the accumulated mistakes
    are non-empty and directly into Complete if they are empty, and after a
    close-out into Complete the step stays Complete and no practice is ever
    prepared. *)
Lemma close_out_with_current_closure :
  forall script selectedCharacter hasVoices s,
    step s = GAME ->
    let fire e := dispatch script selectedCharacter hasVoices e s in
    let never_practices s' :=
      forall events,
        step (run script selectedCharacter hasVoices events s') = COMPLETE /\
        preparing (run script selectedCharacter hasVoices events s') = [] in
    (forall pa reply,
        analyses s = [pa] ->
        beforeLastTurn script (cl_currentTurn (pa_closure pa)) = false ->
        let s' := fire (AnalysisSettled 0 reply) in
        mistakes s'
        = (cl_mistakes (pa_closure pa) ++ resolve (pa_job pa) reply)%list /\
        (mistakes s' <> [] -> step s' = PRACTICE_PREP) /\
        (mistakes s' = [] ->
           step s' = COMPLETE /\
           (utterances s = [] -> preparing s = [] -> never_practices s'))) /\
    (forall cl,
        utterances s = [cl] ->
        cl_mistakes cl = mistakes s ->
        beforeLastTurn script (cl_currentTurn cl) = false ->
        let s' := fire (UtteranceEnd 0) in
        mistakes s' = mistakes s /\
        (mistakes s' <> [] -> step s' = PRACTICE_PREP) /\
        (mistakes s' = [] ->
           step s' = COMPLETE /\
           (analyses s = [] -> preparing s = [] -> never_practices s'))).
Proof.
  intros script sel voices s Hgame fire never_practices. split.
  - intros pa reply Hpa Hlast s'.
    assert (Hh : handle script voices (AnalysisSettled 0 reply) s
                 = processUserTurn_resume script (pa_closure pa)
                     (resolve (pa_job pa) reply) (set_analyses [] s)).
    { cbn [handle]. rewrite Hpa. reflexivity. }
    assert (Hm : mistakes s'
                 = (cl_mistakes (pa_closure pa) ++ resolve (pa_job pa) reply)%list).
    { unfold s', fire, dispatch. rewrite commit_mistakes, Hh.
      unfold processUserTurn_resume. rewrite Hlast. reflexivity. }
    assert (Hst : step s' = if 0 <? List.length (mistakes s')
                            then PRACTICE_PREP else COMPLETE).
    { rewrite Hm. unfold s', fire, dispatch. rewrite commit_step, Hh.
      unfold processUserTurn_resume. rewrite Hlast. reflexivity. }
    split; [exact Hm|]. split.
    + intros Hne. rewrite Hst. destruct (mistakes s'); [congruence | reflexivity].
    + intros Hnil. rewrite Hst, Hnil. split; [reflexivity|].
      intros Hu Hp events.
      assert (Hs' : settled s').
      { unfold s', fire, dispatch. apply commit_completes; try assumption;
          rewrite Hh; unfold processUserTurn_resume; rewrite Hlast; fields;
          try assumption; try reflexivity.
        rewrite <- Hm, Hnil. reflexivity. }
      destruct (settled_run script sel voices events s' Hs') as (H1 & _ & _ & H4 & _).
      split; assumption.
  - intros cl Hcl Hsame Hlast s'.
    assert (Hh : handle script voices (UtteranceEnd 0) s
                 = handleAiTurnEnd script cl
                     (if voices then set_isAiSpeaking false (set_utterances [] s)
                      else set_utterances [] s)).
    { cbn [handle]. rewrite Hcl. reflexivity. }
    assert (Hm : mistakes s' = mistakes s).
    { unfold s', fire, dispatch. rewrite commit_mistakes, Hh.
      unfold handleAiTurnEnd. rewrite Hlast. destruct voices; reflexivity. }
    assert (Hst : step s' = if 0 <? List.length (mistakes s)
                            then PRACTICE_PREP else COMPLETE).
    { unfold s', fire, dispatch. rewrite commit_step, Hh.
      unfold handleAiTurnEnd. rewrite Hlast, Hsame. reflexivity. }
    split; [exact Hm|]. rewrite Hm. split.
    + intros Hne. rewrite Hst. destruct (mistakes s); [congruence | reflexivity].
    + intros Hnil. rewrite Hst, Hnil. split; [reflexivity|].
      intros Ha Hp events.
      assert (Hs' : settled s').
      { unfold s', fire, dispatch. apply commit_completes; try assumption;
          rewrite Hh; unfold handleAiTurnEnd; rewrite Hlast, Hsame, Hnil;
          destruct voices; fields; try assumption; reflexivity. }
      destruct (settled_run script sel voices events s' Hs') as (H1 & _ & _ & H4 & _).
      split; assumption.
Qed.

(** The lemma at both ends: without a mistake the dialogue goes to
    Complete, and no later event prepares a practice. *)
Lemma close_out_example :
  (forall events,
      step (run eightTurns "Customer" true events
              (dispatch eightTurns "Customer" true noMistake lastAnalysisAwaited))
      = COMPLETE /\
      preparing (run eightTurns "Customer" true events
                   (dispatch eightTurns "Customer" true noMistake
                      lastAnalysisAwaited)) = []) /\
  step (dispatch (firstn 3 eightTurns) "Customer" true (UtteranceEnd 0)
          lastUtterancePlaying) = COMPLETE.
Proof.
  split.
  - assert (Hgame : step lastAnalysisAwaited = GAME)
      by (vm_compute; reflexivity).
    destruct (close_out_with_current_closure eightTurns "Customer" true
                lastAnalysisAwaited Hgame) as [Huser _].
    set (pa := {| pa_closure := {| cl_currentTurn := 7; cl_mistakes := [] |};
                  pa_job := analyzeReadingWithAI "Thank you" "Thank you" |}).
    assert (Hpa : analyses lastAnalysisAwaited = [pa])
      by (vm_compute; reflexivity).
    assert (Hlast : beforeLastTurn eightTurns (cl_currentTurn (pa_closure pa))
                    = false) by (vm_compute; reflexivity).
    destruct (Huser pa (Parsed (MistakeArray [])) Hpa Hlast) as (_ & _ & Hnone).
    assert (Hnil : mistakes (dispatch eightTurns "Customer" true
                               (AnalysisSettled 0 (Parsed (MistakeArray [])))
                               lastAnalysisAwaited) = [])
      by (vm_compute; reflexivity).
    destruct (Hnone Hnil) as [_ Hnever].
    apply Hnever; vm_compute; reflexivity.
  - assert (Hgame : step lastUtterancePlaying = GAME)
      by (vm_compute; reflexivity).
    destruct (close_out_with_current_closure (firstn 3 eightTurns) "Customer" true
                lastUtterancePlaying Hgame) as [_ Hai].
    set (cl := {| cl_currentTurn := 2; cl_mistakes := [] |}).
    assert (Hcl : utterances lastUtterancePlaying = [cl])
      by (vm_compute; reflexivity).
    assert (Hsame : cl_mistakes cl = mistakes lastUtterancePlaying)
      by (vm_compute; reflexivity).
    assert (Hlast : beforeLastTurn (firstn 3 eightTurns) (cl_currentTurn cl)
                    = false) by (vm_compute; reflexivity).
    destruct (Hai cl Hcl Hsame Hlast) as (_ & _ & Hnone).
    assert (Hnil : mistakes (dispatch (firstn 3 eightTurns) "Customer" true
                               (UtteranceEnd 0) lastUtterancePlaying) = [])
      by (vm_compute; reflexivity).
    destruct (Hnone Hnil) as [Hc _].
    exact Hc.
Defined.


(** ** Capture errors in the dialogue *)


Section CaptureErrors.

Variable script : list ScriptLine.
Variable selectedCharacter : string.
Variable hasVoices : bool.

Local Notation "e '>>' s" := (dispatch script selectedCharacter hasVoices e s)
  (at level 60, right associativity, only parsing).

Ltac unfold_handlers :=
  unfold startRecognition, speak, handleAiTurnEnd, listening, handleStart,
    handleEnd, handleResult, handleError, silenceElapsed, processUserTurn,
    processUserTurn_resume, preparePractice_resume, practiceHandleError,
    practiceHandleEnd, successElapsed, startPracticeRecognition,
    practiceResultHandler.

Lemma dialogueErrorMessage_truthy (kind : string) :
  Js.truthy (dialogueErrorMessage kind) = true.
Proof. unfold dialogueErrorMessage. destruct (_ || _); reflexivity. Qed.

(** No handler arms the microphone timer: only the turn effect does. *)
Lemma handle_keeps_mic_timer_off (e : Event) (s : State) :
  startMicTimeout s = false ->
  startMicTimeout (handle script hasVoices e s) = false.
Proof.
  intros Hoff. destruct e; cbn [handle]; rewrite ?Hoff; unfold_handlers;
    fields; repeat (split_branch; fields); auto.
Qed.

Lemma optString_eqb_eq (a b : option string) :
  optString_eqb a b = true -> a = b.
Proof.
  destruct a, b; simpl; intros H; try discriminate; [|reflexivity].
  apply String.eqb_eq in H. now subst.
Qed.

(** The effects arm the microphone timer only when no error is shown. *)
Lemma commit_errorBlocksMic (before after : State) :
  errorBlocksMic before ->
  (startMicTimeout before = false -> startMicTimeout after = false) ->
  errorBlocksMic (commit script selectedCharacter before after).
Proof.
  intros Hinv Hmono. unfold errorBlocksMic.
  rewrite commit_recognitionError. intros Herr.
  unfold commit. destruct (sameTurnDeps before after) eqn:Hdeps.
  - assert (Hsame : recognitionError before = recognitionError after).
    { unfold sameTurnDeps in Hdeps.
      apply andb_true_iff in Hdeps as [Hdeps _].
      apply andb_true_iff in Hdeps as [Hdeps _].
      apply andb_true_iff in Hdeps as [_ Hdeps].
      now apply optString_eqb_eq. }
    assert (Hoff : startMicTimeout after = false).
    { apply Hmono, Hinv. now rewrite Hsame. }
    unfold prepEffect. repeat (split_branch; fields); assumption.
  - unfold turnEffect, prepEffect.
    destruct (sameListenerDeps before after); fields; rewrite Herr;
      rewrite !orb_true_r; cbn [orb]; fields;
      repeat (split_branch; fields); reflexivity.
Qed.

Lemma errorBlocksMic_dispatch (e : Event) (s : State) :
  errorBlocksMic s -> errorBlocksMic (e >> s).
Proof.
  intros Hinv. unfold dispatch. apply commit_errorBlocksMic; [exact Hinv|].
  apply handle_keeps_mic_timer_off.
Qed.

Lemma errorBlocksMic_reachable (s : State) :
  reachable script selectedCharacter hasVoices s -> errorBlocksMic s.
Proof.
  intros [events ->]. unfold run. rewrite <- fold_left_rev_right.
  induction (rev events) as [|e l IH]; cbn [fold_right].
  - unfold errorBlocksMic, started, turnEffect, scriptLoaded. fields.
    repeat (split_branch; fields); cbn [optTruthy]; discriminate.
  - now apply errorBlocksMic_dispatch.
Qed.


Lemma blocked_handle (e : Event) (s : State) :
  blocked s ->
  optTruthy (recognitionError (handle script hasVoices e s)) = true /\
  captureStarts (handle script hasVoices e s) = captureStarts s.
Proof.
  intros [Herr Hoff]. destruct e; cbn [handle]; rewrite ?Hoff; unfold_handlers;
    fields; repeat (split_branch; fields); cbn [optTruthy];
    rewrite ?dialogueErrorMessage_truthy; auto.
Qed.

Lemma blocked_dispatch (e : Event) (s : State) :
  blocked s -> blocked (e >> s) /\ captureStarts (e >> s) = captureStarts s.
Proof.
  intros Hb. destruct (blocked_handle e s Hb) as [Herr Hcs].
  destruct Hb as [Herr0 Hoff]. unfold dispatch.
  rewrite commit_captureStarts. split; [|exact Hcs].
  split; [now rewrite commit_recognitionError|].
  apply commit_errorBlocksMic.
  - intros _. exact Hoff.
  - intros _. now apply handle_keeps_mic_timer_off.
  - now rewrite commit_recognitionError.
Qed.

Lemma blocked_run (events : list Event) (s : State) :
  blocked s ->
  blocked (run script selectedCharacter hasVoices events s) /\
  captureStarts (run script selectedCharacter hasVoices events s)
  = captureStarts s.
Proof.
  revert s. induction events as [|e events IH]; intros s Hb; [now split|].
  cbn [run fold_left]. destruct (blocked_dispatch e s Hb) as [Hb' Hcs].
  destruct (IH _ Hb') as [Hb'' Hcs']. split; [exact Hb''|].
  unfold run in Hcs'. congruence.
Qed.

(** A benign error stops the capture and shows nothing. *)
Lemma benign_error (kind : string) (s : State) :
  step s = GAME -> isBenign kind = true ->
  recognitionError (CaptureError kind >> s) = recognitionError s /\
  isRecognitionActive (CaptureError kind >> s) = false /\
  currentTurn (CaptureError kind >> s) = currentTurn s.
Proof.
  intros Hgame Hb. unfold dispatch.
  rewrite commit_recognitionError, commit_isRecognitionActive, commit_currentTurn.
  cbn [handle]. unfold listening. rewrite Hgame. cbn [Step_eqb].
  unfold handleError. rewrite Hb. fields. auto.
Qed.

(** After a benign error during an active capture of the learner's turn the
    microphone timer is armed again, and when it fires the capture is
    started once more, for the same turn. *)
Lemma benign_error_restart (kind : string) (s : State) (current : ScriptLine) :
  step s = GAME -> isBenign kind = true ->
  isRecognitionActive s = true ->
  optTruthy (recognitionError s) = false ->
  isAiSpeaking s = false ->
  nth_error script (currentTurn s) = Some current ->
  character current = selectedCharacter ->
  startMicTimeout (CaptureError kind >> s) = true /\
  captureStarts (MicTimeout Started >> CaptureError kind >> s)
  = (captureStarts s ++ [currentTurn s])%list /\
  currentTurn (MicTimeout Started >> CaptureError kind >> s) = currentTurn s.
Proof.
  intros Hgame Hb Hact Herr Hai Hcur Hchar.
  assert (Hlen : currentTurn s < List.length script).
  { apply nth_error_Some. congruence. }
  assert (Hafter : CaptureError kind >> s
                   = set_startMicTimeout true
                       (set_aiTimeout None
                          (set_startMicTimeout false
                             (set_isRecognitionActive false
                                (set_speechTimeout None s))))).
  { unfold dispatch. cbn [handle]. unfold listening. rewrite Hgame.
    cbn [Step_eqb]. unfold handleError. rewrite Hb.
    unfold commit, sameListenerDeps, sameTurnDeps, samePrepDeps. fields.
    rewrite Hgame, Hact, !Nat.eqb_refl, optString_eqb_refl.
    cbn [Step_eqb andb Bool.eqb]. unfold turnEffect. fields.
    rewrite Hgame, Herr, Hai, Hcur, Hchar, String.eqb_refl.
    assert (H0 : (List.length script =? 0) = false) by (apply Nat.eqb_neq; lia).
    assert (H1 : (List.length script <=? currentTurn s) = false)
      by (apply Nat.leb_gt; lia).
    rewrite H0, H1, andb_false_r. cbn [Step_eqb negb orb]. reflexivity. }
  rewrite Hafter. split; [reflexivity|].
  unfold dispatch. rewrite commit_captureStarts, commit_currentTurn.
  cbn [handle]. fields. unfold startRecognition. fields. split; reflexivity.
Qed.

(** Any other error is shown, and from then on it stays shown and the
    capture is never started again. *)
Lemma blocking_error (kind : string) (s : State) :
  errorBlocksMic s -> step s = GAME -> isBenign kind = false ->
  recognitionError (CaptureError kind >> s) = Some (dialogueErrorMessage kind) /\
  isRecognitionActive (CaptureError kind >> s) = false /\
  forall events,
    let s' := run script selectedCharacter hasVoices events
                (CaptureError kind >> s) in
    optTruthy (recognitionError s') = true /\
    captureStarts s' = captureStarts s.
Proof.
  intros Hinv Hgame Hb.
  assert (Herr : recognitionError (CaptureError kind >> s)
                 = Some (dialogueErrorMessage kind)).
  { unfold dispatch. rewrite commit_recognitionError.
    cbn [handle]. unfold listening. rewrite Hgame. cbn [Step_eqb].
    unfold handleError. rewrite Hb. reflexivity. }
  assert (Hact : isRecognitionActive (CaptureError kind >> s) = false).
  { unfold dispatch. rewrite commit_isRecognitionActive.
    cbn [handle]. unfold listening. rewrite Hgame. cbn [Step_eqb].
    unfold handleError. rewrite Hb. reflexivity. }
  assert (Hcs : captureStarts (CaptureError kind >> s) = captureStarts s).
  { unfold dispatch. rewrite commit_captureStarts.
    cbn [handle]. unfold listening. rewrite Hgame. cbn [Step_eqb].
    unfold handleError. rewrite Hb. reflexivity. }
  assert (Hblocked : blocked (CaptureError kind >> s)).
  { split.
    - rewrite Herr. apply dialogueErrorMessage_truthy.
    - apply errorBlocksMic_dispatch; [exact Hinv|].
      rewrite Herr. apply dialogueErrorMessage_truthy. }
  split; [exact Herr|]. split; [exact Hact|].
  intros events s'. subst s'.
  destruct (blocked_run events _ Hblocked) as [[H1 _] H2].
  split; [exact H1 | now rewrite H2].
Qed.

End CaptureErrors.

Lemma isBenign_spec (kind : string) :
  isBenign kind = true <-> kind = "aborted" \/ kind = "no-speech".
Proof.
  unfold isBenign. cbn [existsb]. rewrite orb_false_r, orb_true_iff.
  now rewrite !String.eqb_eq.
Qed.

(** C8: in the dialogue an [aborted] or [no-speech] capture error is benign:
    the capture stops, no error is shown, the turn stays the same, and after
    an active capture of the learner's turn the microphone timer is armed
    again and restarts the capture for that turn.  Every other kind shows an
    error; from then on, whatever happens, an error stays shown and the
    capture is not started again. *)
Theorem C8_capture_error_policy :
  forall script selectedCharacter hasVoices s kind,
    reachable script selectedCharacter hasVoices s ->
    step s = GAME ->
    let fire e s := dispatch script selectedCharacter hasVoices e s in
    let s' := fire (CaptureError kind) s in
    (kind = "aborted" \/ kind = "no-speech" ->
       recognitionError s' = recognitionError s /\
       isRecognitionActive s' = false /\
       currentTurn s' = currentTurn s /\
       forall current,
         isRecognitionActive s = true ->
         optTruthy (recognitionError s) = false ->
         isAiSpeaking s = false ->
         nth_error script (currentTurn s) = Some current ->
         character current = selectedCharacter ->
         startMicTimeout s' = true /\
         captureStarts (fire (MicTimeout Started) s')
         = (captureStarts s ++ [currentTurn s])%list /\
         currentTurn (fire (MicTimeout Started) s') = currentTurn s) /\
    (kind <> "aborted" -> kind <> "no-speech" ->
       recognitionError s' = Some (dialogueErrorMessage kind) /\
       dialogueErrorMessage kind <> "" /\
       isRecognitionActive s' = false /\
       forall events,
         let s'' := run script selectedCharacter hasVoices events s' in
         optTruthy (recognitionError s'') = true /\
         captureStarts s'' = captureStarts s).
Proof.
  intros script sel voices s kind Hreach Hgame fire s'. split.
  - intros Hkind. apply isBenign_spec in Hkind.
    destruct (benign_error script sel voices kind s Hgame Hkind)
      as (H1 & H2 & H3).
    repeat (split; [assumption|]).
    intros current Hact Herr Hai Hcur Hchar.
    exact (benign_error_restart script sel voices kind s current
             Hgame Hkind Hact Herr Hai Hcur Hchar).
  - intros Hna Hns.
    assert (Hkind : isBenign kind = false).
    { destruct (isBenign kind) eqn:E; [|reflexivity].
      apply isBenign_spec in E. tauto. }
    destruct (blocking_error script sel voices kind s
                (errorBlocksMic_reachable script sel voices s Hreach)
                Hgame Hkind) as (H1 & H2 & H3).
    split; [exact H1|]. split; [|split; [exact H2 | exact H3]].
    intros Hempty. pose proof (dialogueErrorMessage_truthy kind) as Ht.
    rewrite Hempty in Ht. discriminate.
Qed.


(** The theorem during that capture: after [no-speech] the capture is
    started a second time for turn 1; after [not-allowed] the error is
    shown. *)
Lemma C8_witness :
  captureStarts
    (dispatch eightTurns "Customer" true (MicTimeout Started)
       (dispatch eightTurns "Customer" true (CaptureError "no-speech") capturing))
  = (captureStarts capturing ++ [currentTurn capturing])%list /\
  recognitionError
    (dispatch eightTurns "Customer" true (CaptureError "not-allowed") capturing)
  = Some "Microphone access denied.".
Proof.
  assert (Hreach : reachable eightTurns "Customer" true capturing)
    by (eexists; reflexivity).
  assert (Hgame : step capturing = GAME) by (vm_compute; reflexivity).
  split.
  - destruct (C8_capture_error_policy eightTurns "Customer" true capturing
                "no-speech" Hreach Hgame) as [Hbenign _].
    destruct (Hbenign (or_intror eq_refl)) as (_ & _ & _ & Hrestart).
    assert (Hact : isRecognitionActive capturing = true)
      by (vm_compute; reflexivity).
    assert (Herr : optTruthy (recognitionError capturing) = false)
      by (vm_compute; reflexivity).
    assert (Hai : isAiSpeaking capturing = false) by (vm_compute; reflexivity).
    assert (Hcur : nth_error eightTurns (currentTurn capturing)
                   = Some {| character := "Customer";
                             line := "I want two apples" |})
      by (vm_compute; reflexivity).
    destruct (Hrestart _ Hact Herr Hai Hcur eq_refl) as (_ & Hstarts & _).
    exact Hstarts.
  - destruct (C8_capture_error_policy eightTurns "Customer" true capturing
                "not-allowed" Hreach Hgame) as [_ Hblocking].
    assert (H1 : "not-allowed" <> "aborted") by discriminate.
    assert (H2 : "not-allowed" <> "no-speech") by discriminate.
    destruct (Hblocking H1 H2) as (Hshown & _).
    exact Hshown.
Defined.

(** ** The per-turn guard *)

Section TurnGuard.

Variable script : list ScriptLine.
Variable selectedCharacter : string.
Variable hasVoices : bool.

(** While the guard is set, only [startRecognition] clears it, and nothing
    is submitted: result events and the silence timer are ignored. *)
Lemma guard_holds (e : Event) (s : State) :
  hasProcessedTurn s = true ->
  (forall o, e <> MicTimeout o) ->
  hasProcessedTurn (dispatch script selectedCharacter hasVoices e s) = true /\
  submissions (dispatch script selectedCharacter hasVoices e s) = submissions s.
Proof.
  intros Hguard Hnot. unfold dispatch.
  rewrite commit_hasProcessedTurn, commit_submissions.
  destruct e; try (exfalso; eapply Hnot; reflexivity); cbn [handle];
    unfold speak, handleAiTurnEnd, listening, handleStart,
      handleEnd, handleResult, handleError, silenceElapsed, processUserTurn,
      processUserTurn_resume, preparePractice_resume, practiceHandleError,
      practiceHandleEnd, successElapsed, startPracticeRecognition,
      practiceResultHandler;
    fields; rewrite ?Hguard; repeat (split_branch; fields); auto.
Qed.

(** A submission sets the guard in the same step, before the analysis is
    awaited, and comes from the silence timer only. *)
Lemma submission_sets_guard (e : Event) (s : State) :
  submissions (dispatch script selectedCharacter hasVoices e s) <> submissions s ->
  e = SilenceTimeout /\ hasProcessedTurn s = false /\
  hasProcessedTurn (dispatch script selectedCharacter hasVoices e s) = true.
Proof.
  unfold dispatch. rewrite commit_hasProcessedTurn, commit_submissions.
  destruct e; cbn [handle];
    unfold startRecognition, speak, handleAiTurnEnd, listening, handleStart,
      handleEnd, handleResult, handleError, silenceElapsed, processUserTurn,
      processUserTurn_resume, preparePractice_resume, practiceHandleError,
      practiceHandleEnd, successElapsed, startPracticeRecognition,
      practiceResultHandler;
    fields; repeat (split_branch; fields); intros H;
    try (exfalso; apply H; reflexivity); auto.
Qed.

End TurnGuard.

(** C1, evaluated where it fails: with the analysis of turn 1 still awaited,
    the end of the capture re-arms the microphone timer, [startRecognition]
    clears the guard without a change of turn, and turn 1 is submitted to
    the analyzer a second time. *)
Theorem C1_turn_submitted_twice :
  let play events :=
    run eightTurns "Customer" true events (started eightTurns "Customer") in
  let once := play (firstn 7 slowAnalyzer) in
  let restarted := play (firstn 9 slowAnalyzer) in
  let twice := play slowAnalyzer in
  let request said :=
    (1, {| targetText := "I want two apples"; spokenText := said |}) in
  (submissions once = [request "I want two apples"] /\
   hasProcessedTurn once = true) /\
  (hasProcessedTurn restarted = false /\ currentTurn restarted = 1 /\
   List.length (analyses restarted) = 1) /\
  (submissions twice
   = [request "I want two apples"; request "two apples please"] /\
   currentTurn twice = 1 /\ List.length (analyses twice) = 2).
Proof. vm_compute. repeat split. Qed.

(** * Further properties of the code *)

(** ** [trim] *)

Section TrimFacts.

Lemma trimEnd_idempotent (s : string) : Js.trimEnd (Js.trimEnd s) = Js.trimEnd s.
Proof.
  induction s as [|c r IH]; [reflexivity|].
  cbn [Js.trimEnd]. destruct (Js.trimEnd r) as [|a t] eqn:E.
  - destruct (Js.isWhiteSpace c) eqn:Hc; [reflexivity|].
    cbn [Js.trimEnd]. now rewrite Hc.
  - cbn [Js.trimEnd]. cbn [Js.trimEnd] in IH. rewrite IH. reflexivity.
Qed.

(** What [trimStart] returns does not begin with white space. *)
Lemma trimStart_head (s : string) (c : ascii) (r : string) :
  Js.trimStart s = String c r -> Js.isWhiteSpace c = false.
Proof.
  induction s as [|a s IH]; cbn [Js.trimStart]; [discriminate|].
  destruct (Js.isWhiteSpace a) eqn:Ha; [exact IH|].
  intros H. injection H as <- _. exact Ha.
Qed.

Lemma trimStart_fixed (c : ascii) (r : string) :
  Js.isWhiteSpace c = false -> Js.trimStart (String c r) = String c r.
Proof. intros H. cbn [Js.trimStart]. now rewrite H. Qed.

(** [trimEnd] keeps a first character that is no white space. *)
Lemma trimEnd_head (c : ascii) (r : string) :
  Js.isWhiteSpace c = false ->
  exists t, Js.trimEnd (String c r) = String c t.
Proof.
  intros H. cbn [Js.trimEnd]. destruct (Js.trimEnd r) as [|a t].
  - rewrite H. now exists EmptyString.
  - now exists (String a t).
Qed.

Lemma trim_idempotent (s : string) : Js.trim (Js.trim s) = Js.trim s.
Proof.
  unfold Js.trim. destruct (Js.trimStart s) as [|c r] eqn:E; [reflexivity|].
  pose proof (trimStart_head s c r E) as Hc.
  destruct (trimEnd_head c r Hc) as [t Ht].
  rewrite Ht, (trimStart_fixed c t Hc), <- Ht.
  apply trimEnd_idempotent.
Qed.

End TrimFacts.

(** ** The match of a practice attempt, further *)

Lemma append_empty_r (s : string) : s ++ "" = s.
Proof. induction s as [|c s IH]; [reflexivity|]. cbn. now rewrite IH. Qed.

Lemma includes_refl (s : string) : Js.includes s s = true.
Proof.
  apply includes_spec. exists EmptyString, EmptyString.
  cbn [append]. now rewrite append_empty_r.
Qed.

Lemma includes_empty (s : string) : Js.includes s EmptyString = true.
Proof. destruct s; reflexivity. Qed.

(** X1: the verdict on an attempt depends on the cleaned forms only: a
    transcript with the same cleaned form as the current word (the word
    itself, or the word in another case, with surrounding white space or
    with the punctuation [. , ? !]) is a Success. *)
Theorem X1_same_cleaned_form_succeeds :
  forall script selectedCharacter hasVoices s transcript target,
    nth_error (practiceWords s) (currentPracticeWordIndex s) = Some target ->
    cleanWord transcript = cleanWord (word target) ->
    practiceStatus
      (dispatch script selectedCharacter hasVoices (PracticeResult transcript) s)
    = SUCCESS.
Proof.
  intros script sel voices s transcript target Hcur Hsame.
  rewrite (practice_result_status script sel voices s transcript target Hcur).
  now rewrite Hsame, includes_refl.
Qed.

(** The theorem at the word "two" said as " TWO? ". *)
Lemma X1_witness :
  practiceStatus
    (dispatch twoScript "Customer" true (PracticeResult " TWO? ") practisingTwo)
  = SUCCESS.
Proof.
  assert (Hcur : nth_error (practiceWords practisingTwo)
                   (currentPracticeWordIndex practisingTwo)
                 = Some {| word := "two"; phonemes := ["too"] |})
    by (vm_compute; reflexivity).
  assert (Hsame : cleanWord " TWO? " = cleanWord "two")
    by (vm_compute; reflexivity).
  exact (X1_same_cleaned_form_succeeds twoScript "Customer" true practisingTwo
           " TWO? " _ Hcur Hsame).
Defined.

(** X2: a practice word whose cleaned form is empty (only white space and
    the punctuation [. , ? !]) is passed by every transcript, the empty one
    included; such a word is non-empty, so [preparePractice] keeps it. *)
Theorem X2_empty_cleaned_word_always_succeeds :
  forall script selectedCharacter hasVoices s transcript target,
    nth_error (practiceWords s) (currentPracticeWordIndex s) = Some target ->
    cleanWord (word target) = "" ->
    practiceStatus
      (dispatch script selectedCharacter hasVoices (PracticeResult transcript) s)
    = SUCCESS.
Proof.
  intros script sel voices s transcript target Hcur Hnone.
  rewrite (practice_result_status script sel voices s transcript target Hcur).
  now rewrite Hnone, includes_empty.
Qed.

(** The theorem at the expected word "!", which the learner passes by
    saying "banana". *)
Lemma X2_witness :
  practiceWords practisingBang = [ {| word := "!"; phonemes := ["!"] |} ] /\
  practiceStatus
    (dispatch twoScript "Customer" true (PracticeResult "banana")
       practisingBang) = SUCCESS.
Proof.
  split; [vm_compute; reflexivity|].
  assert (Hcur : nth_error (practiceWords practisingBang)
                   (currentPracticeWordIndex practisingBang)
                 = Some {| word := "!"; phonemes := ["!"] |})
    by (vm_compute; reflexivity).
  assert (Hnone : cleanWord "!" = "") by (vm_compute; reflexivity).
  exact (X2_empty_cleaned_word_always_succeeds twoScript "Customer" true
           practisingBang "banana" _ Hcur Hnone).
Defined.

(** ** Which words the preparation drops *)



(** ** The voice of an utterance *)

(** [find] returns the first element that passes. *)
Lemma find_first {A} (p : A -> bool) (l : list A) (v : A) :
  find p l = Some v ->
  p v = true /\
  exists before after,
    l = (before ++ v :: after)%list /\ forall u, In u before -> p u = false.
Proof.
  induction l as [|a l IH]; cbn [find]; [discriminate|].
  destruct (p a) eqn:Ha.
  - intros H. injection H as <-. split; [exact Ha|].
    exists [], l. split; [reflexivity|]. intros u [].
  - intros H. destruct (IH H) as (Hv & before & after & -> & Hno).
    split; [exact Hv|]. exists (a :: before), after.
    split; [reflexivity|]. intros u [<-|Hu]; auto.
Qed.

(** X4: [speak] and [pronounceWord] never pick a voice that is not English:
    the voice is the first English voice whose name contains "Google" if
    there is one, else the first English voice, and none exactly when no
    voice is English. *)
Theorem X4_voice_is_english_google_first :
  forall voices,
    match englishVoice voices with
    | Some v =>
        isEnglish v = true /\
        exists before after,
          voices = (before ++ v :: after)%list /\
          ((isGoogle v = true /\
            forall u, In u before -> isEnglish u && isGoogle u = false) \/
           ((forall u, In u voices -> isEnglish u && isGoogle u = false) /\
            forall u, In u before -> isEnglish u = false))
    | None => forall u, In u voices -> isEnglish u = false
    end.
Proof.
  intros voices. unfold englishVoice.
  change (fun v => Js.startsWith (lang v) "en" && Js.includes (name v) "Google")
    with (fun v => isEnglish v && isGoogle v).
  change (fun v => Js.startsWith (lang v) "en") with isEnglish.
  destruct (find (fun v => isEnglish v && isGoogle v) voices) as [v|] eqn:Hgoogle.
  - apply find_first in Hgoogle as (Hv & before & after & Hsplit & Hno).
    apply andb_true_iff in Hv as [He Hg].
    split; [exact He|]. exists before, after. split; [exact Hsplit|].
    left. split; assumption.
  - destruct (find isEnglish voices) as [v|] eqn:Henglish.
    + apply find_first in Henglish as (He & before & after & Hsplit & Hno).
      split; [exact He|]. exists before, after. split; [exact Hsplit|].
      right. split; [|exact Hno].
      intros u Hu. exact (find_none _ _ Hgoogle u Hu).
    + intros u Hu. exact (find_none _ _ Henglish u Hu).
Qed.

(** ** What the dialogue submits *)

Ltac unfold_handlers :=
  unfold startRecognition, speak, handleAiTurnEnd, listening, handleStart,
    handleEnd, handleResult, handleError, silenceElapsed, processUserTurn,
    processUserTurn_resume, preparePractice_resume, practiceHandleError,
    practiceHandleEnd, successElapsed, startPracticeRecognition,
    practiceResultHandler.

Section Submissions.

Variable script : list ScriptLine.
Variable selectedCharacter : string.
Variable hasVoices : bool.

Local Notation "e '>>' s" := (dispatch script selectedCharacter hasVoices e s)
  (at level 60, right associativity, only parsing).

(** A transcript that is not blank after [trim] is sent to the service. *)
Lemma analyze_trimmed (transcript targetText : string) :
  Js.truthy (Js.trim transcript) = true ->
  analyzeReadingWithAI (Js.trim transcript) targetText
  = Awaiting {| targetText := targetText; spokenText := Js.trim transcript |}
      (fun reply =>
         match reply with
         | Parsed (MistakeArray result) => result
         | Parsed NotAnArray => []
         | Threw => []
         end).
Proof.
  intros H. unfold analyzeReadingWithAI. now rewrite trim_idempotent, H.
Qed.

(** What one event adds to the submissions. *)
Lemma dispatch_submissions (e : Event) (s : State) :
  submissions (e >> s) = submissions s \/
  exists fullTranscript target,
    e = SilenceTimeout /\
    speechTimeout s = Some fullTranscript /\
    hasProcessedTurn s = false /\
    Js.truthy (Js.trim fullTranscript) = true /\
    nth_error script (currentTurn s) = Some target /\
    hasProcessedTurn (e >> s) = true /\
    submissions (e >> s)
    = (submissions s
       ++ [(currentTurn s, {| targetText := line target;
                              spokenText := Js.trim fullTranscript |})])%list.
Proof.
  unfold dispatch. rewrite commit_submissions, commit_hasProcessedTurn.
  destruct e; cbn [handle]; try (left; unfold_handlers; fields;
    repeat (split_branch; fields); reflexivity).
  destruct (speechTimeout s) as [ft|] eqn:Hft; [|now left].
  unfold silenceElapsed.
  destruct (Js.truthy (Js.trim ft)) eqn:Htr; [|now left].
  unfold processUserTurn. fields.
  destruct (hasProcessedTurn s) eqn:Hg; [now left|]. fields.
  destruct (nth_error script (currentTurn s)) as [target|] eqn:Hline;
    [|now left].
  right. exists ft, target. rewrite (analyze_trimmed ft (line target) Htr).
  fields. cbn [requests map]. repeat split; try reflexivity; assumption.
Qed.

Lemma removeAt_In {A} (i : nat) (l : list A) (x : A) :
  In x (removeAt i l) -> In x l.
Proof.
  unfold removeAt. revert i. induction l as [|a l IH]; intros i.
  - destruct i; cbn; auto.
  - destruct i as [|i].
    + cbn [firstn skipn app]. destruct l; cbn; auto.
    + cbn [firstn skipn app]. intros [<-|H]; [now left|].
      right. exact (IH i H).
Qed.

Lemma Forall_removeAt {A} (P : A -> Prop) (i : nat) (l : list A) :
  Forall P l -> Forall P (removeAt i l).
Proof.
  intros H. apply Forall_forall. intros x Hx. apply removeAt_In in Hx.
  revert x Hx. now apply Forall_forall.
Qed.

Lemma dispatch_analyses_requested (e : Event) (s : State) :
  Forall requested (analyses s) -> Forall requested (analyses (e >> s)).
Proof.
  intros H. unfold dispatch.
  assert (Hc : forall a b, analyses (commit script selectedCharacter a b)
                           = analyses b) by (intros; effects_crush).
  rewrite Hc.
  destruct e; cbn [handle]; try (unfold_handlers; fields;
    repeat (split_branch; fields); first [exact H | now apply Forall_removeAt]).
  destruct (speechTimeout s) as [ft|]; [|exact H].
  unfold silenceElapsed.
  destruct (Js.truthy (Js.trim ft)) eqn:Htr; [|exact H].
  unfold processUserTurn. fields.
  destruct (hasProcessedTurn s); [exact H|]. fields.
  destruct (nth_error script (currentTurn s)) as [target|]; [|exact H].
  fields. apply Forall_app. split; [exact H|].
  constructor; [|constructor]. unfold requested. cbn [pa_job].
  rewrite (analyze_trimmed ft (line target) Htr). eauto.
Qed.

End Submissions.

(** X5: whatever happens in a dialogue, every request the component sends to
    the analyzer carries a transcript that is trimmed and not blank, and the
    text of the script line of the turn it was sent for; every analysis it
    awaits has sent a request.  So the component never reaches the branch
    of [analyzeReadingWithAI] for an empty transcript (line 112). *)
Theorem X5_submissions_are_well_formed :
  forall script selectedCharacter hasVoices events,
    let s := run script selectedCharacter hasVoices events
               (started script selectedCharacter) in
    Forall (wellFormedSubmission script) (submissions s) /\
    Forall (fun pa => exists request k, pa_job pa = Awaiting request k)
      (analyses s).
Proof.
  intros script sel voices events. cbv zeta. unfold run.
  rewrite <- fold_left_rev_right.
  induction (rev events) as [|e l IH]; cbn [fold_right].
  - unfold started, turnEffect, scriptLoaded. fields.
    repeat (split_branch; fields); split; constructor.
  - cbv beta. set (s0 := fold_right _ _ l) in *.
    destruct IH as [IHs IHa]. split.
    + destruct (dispatch_submissions script sel voices e s0)
        as [Hsame | (ft & target & _ & _ & _ & Htr & Hline & _ & Hadd)].
      * now rewrite Hsame.
      * rewrite Hadd. apply Forall_app. split; [exact IHs|].
        constructor; [|constructor]. unfold wellFormedSubmission.
        cbn [fst snd spokenText targetText].
        rewrite trim_idempotent. split; [exact Htr|]. split; [reflexivity|].
        now exists target.
    + now apply dispatch_analyses_requested.
Qed.

(** X6: between two starts of the capture at most one transcript is
    submitted, and none while the guard is set: over any events that
    contain no firing of the microphone timer, the submissions grow by at
    most one entry. *)
Theorem X6_one_submission_per_capture_start :
  forall script selectedCharacter hasVoices events s,
    forallb (fun e => negb (isMicTimeout e)) events = true ->
    exists added,
      submissions (run script selectedCharacter hasVoices events s)
      = (submissions s ++ added)%list /\
      List.length added <= 1 /\
      (hasProcessedTurn s = true -> added = []).
Proof.
  intros script sel voices events.
  induction events as [|e events IH]; intros s Hno.
  - exists []. cbn. rewrite app_nil_r. auto.
  - cbn [forallb] in Hno. apply andb_true_iff in Hno as [He Hno].
    assert (Hnot : forall o, e <> MicTimeout o).
    { intros o ->. discriminate. }
    cbn [run fold_left].
    destruct (IH (dispatch script sel voices e s) Hno)
      as (added & Hrun & Hlen & Hguard).
    unfold run in Hrun. rewrite Hrun.
    destruct (dispatch_submissions script sel voices e s)
      as [Hsame | (ft & target & _ & _ & Hopen & _ & _ & Hset & Hadd)].
    + rewrite Hsame. exists added. split; [reflexivity|].
      split; [exact Hlen|]. intros Hg. apply Hguard.
      exact (proj1 (guard_holds script sel voices e s Hg Hnot)).
    + rewrite Hadd, (Hguard Hset), app_nil_r. eexists.
      split; [reflexivity|]. split; [cbn; lia|].
      intros Hg. congruence.
Qed.

(** The theorem during the capture of turn 1: two results and two silence
    timers give one submission. *)
Lemma X6_witness :
  exists added,
    submissions
      (run eightTurns "Customer" true
         [ CaptureResult ["I want"]; SilenceTimeout;
           CaptureResult ["two apples"]; SilenceTimeout; CaptureEnd ]
         capturing)
    = (submissions capturing ++ added)%list /\
    List.length added <= 1 /\
    (hasProcessedTurn capturing = true -> added = []).
Proof.
  exact (X6_one_submission_per_capture_start eightTurns "Customer" true
           [ CaptureResult ["I want"]; SilenceTimeout;
             CaptureResult ["two apples"]; SilenceTimeout; CaptureEnd ]
           capturing eq_refl).
Defined.

(** ** The transcript of a turn *)

Section Transcript.

Variable script : list ScriptLine.
Variable selectedCharacter : string.
Variable hasVoices : bool.

Local Notation "e '>>' s" := (dispatch script selectedCharacter hasVoices e s)
  (at level 60, right associativity, only parsing).

(** A result event while the guard is clear: the count and the timer. *)
Lemma result_event (transcripts : list string) (s : State) :
  step s = GAME -> hasProcessedTurn s = false ->
  CaptureResult transcripts >> s
  = set_speechTimeout (Some (String.concat "" transcripts))
      (set_matchedWordCount
         (List.length
            (filter Js.truthy
               (map cleanWord
                  (Js.split " " (String.concat "" transcripts))))) s).
Proof.
  intros Hgame Hguard. unfold dispatch. cbn [handle]. unfold listening.
  rewrite Hgame. cbn [Step_eqb]. unfold handleResult. rewrite Hguard.
  cbv zeta. now apply commit_same_deps.
Qed.

Lemma commit_speechTimeout_none (a b : State) :
  speechTimeout b = None ->
  speechTimeout (commit script selectedCharacter a b) = None.
Proof. intros H. effects_crush; assumption. Qed.

End Transcript.

(** X7: only the last result event of a capture counts.  Each result event
    replaces the pending silence timer and the word count by those of its
    own transcript, so when the timer fires the component submits the
    trimmed transcript of the last event alone, for the current turn. *)
Theorem X7_last_result_event_is_submitted :
  forall script selectedCharacter hasVoices s earlier latest target,
    step s = GAME ->
    hasProcessedTurn s = false ->
    nth_error script (currentTurn s) = Some target ->
    Js.truthy (Js.trim (String.concat "" latest)) = true ->
    let s' := run script selectedCharacter hasVoices
                [CaptureResult earlier; CaptureResult latest; SilenceTimeout] s in
    submissions s'
    = (submissions s
       ++ [(currentTurn s,
            {| targetText := line target;
               spokenText := Js.trim (String.concat "" latest) |})])%list /\
    matchedWordCount s'
    = List.length
        (filter Js.truthy
           (map cleanWord (Js.split " " (String.concat "" latest)))) /\
    hasProcessedTurn s' = true.
Proof.
  intros script sel voices s earlier latest target Hgame Hguard Hline Hsaid s'.
  unfold s'. cbn [run fold_left].
  rewrite (result_event script sel voices earlier s Hgame Hguard).
  rewrite (result_event script sel voices latest) by (fields; assumption).
  unfold dispatch.
  rewrite commit_submissions, commit_hasProcessedTurn.
  assert (Hc : forall a b, matchedWordCount (commit script sel a b)
                           = matchedWordCount b) by (intros; effects_crush).
  rewrite Hc. cbn [handle]. fields. unfold silenceElapsed. rewrite Hsaid.
  unfold processUserTurn. fields. rewrite Hguard, Hline.
  rewrite (analyze_trimmed _ (line target) Hsaid). fields.
  cbn [requests map]. repeat split.
Qed.

(** The theorem during the capture of turn 1: "I want" is followed by a
    result event that carries only "two apples". *)
Lemma X7_witness :
  submissions
    (run eightTurns "Customer" true
       [CaptureResult ["I want "]; CaptureResult ["two"; " apples "];
        SilenceTimeout] capturing)
  = [(1, {| targetText := "I want two apples";
            spokenText := "two apples" |})].
Proof.
  assert (Hgame : step capturing = GAME) by (vm_compute; reflexivity).
  assert (Hguard : hasProcessedTurn capturing = false)
    by (vm_compute; reflexivity).
  assert (Hline : nth_error eightTurns (currentTurn capturing)
                  = Some {| character := "Customer";
                            line := "I want two apples" |})
    by (vm_compute; reflexivity).
  assert (Hsaid : Js.truthy (Js.trim (String.concat "" ["two"; " apples "]))
                  = true) by (vm_compute; reflexivity).
  destruct (X7_last_result_event_is_submitted eightTurns "Customer" true
              capturing ["I want "] ["two"; " apples "] _
              Hgame Hguard Hline Hsaid) as [Hsub _].
  rewrite Hsub. vm_compute. reflexivity.
Defined.

(** X8: a capture error of any kind, benign or not, cancels the pending
    silence timer: what was heard before the error is not submitted. *)
Theorem X8_error_discards_pending_transcript :
  forall script selectedCharacter hasVoices s kind,
    step s = GAME ->
    let s' := dispatch script selectedCharacter hasVoices (CaptureError kind) s in
    speechTimeout s' = None /\
    dispatch script selectedCharacter hasVoices SilenceTimeout s' = s' /\
    submissions s' = submissions s.
Proof.
  intros script sel voices s kind Hgame s'.
  assert (Hnone : speechTimeout s' = None).
  { unfold s', dispatch. apply commit_speechTimeout_none.
    cbn [handle]. unfold listening. rewrite Hgame. cbn [Step_eqb].
    unfold handleError. destruct (isBenign kind); reflexivity. }
  split; [exact Hnone|]. split.
  - unfold dispatch at 1. cbn [handle]. rewrite Hnone.
    now apply commit_same_deps.
  - unfold s', dispatch. rewrite commit_submissions.
    cbn [handle]. unfold listening. rewrite Hgame. cbn [Step_eqb].
    unfold handleError. destruct (isBenign kind); reflexivity.
Qed.

(** The theorem during the capture of turn 1, with "I want two apples"
    heard and the timer pending when [network] arrives. *)
Lemma X8_witness :
  submissions
    (run eightTurns "Customer" true
       [CaptureError "network"; SilenceTimeout]
       (dispatch eightTurns "Customer" true
          (CaptureResult ["I want two apples"]) capturing)) = [].
Proof.
  set (heard := dispatch eightTurns "Customer" true
                  (CaptureResult ["I want two apples"]) capturing).
  assert (Hgame : step heard = GAME) by (vm_compute; reflexivity).
  destruct (X8_error_discards_pending_transcript eightTurns "Customer" true
              heard "network" Hgame) as (_ & Hnoop & Hsame).
  cbn [run fold_left]. rewrite Hnoop, Hsame. vm_compute. reflexivity.
Defined.

(** X9: when [start()] throws anything but [InvalidStateError],
    [startRecognition] shows "Failed to start microphone."; from then on an
    error stays shown and the capture is never started again.  An
    [InvalidStateError] is swallowed: no error is shown. *)
Theorem X9_failed_microphone_start :
  forall script selectedCharacter hasVoices s,
    reachable script selectedCharacter hasVoices s ->
    startMicTimeout s = true ->
    isRecognitionActive s = false ->
    let fire o := dispatch script selectedCharacter hasVoices (MicTimeout o) s in
    recognitionError (fire InvalidStateError) = None /\
    recognitionError (fire OtherStartError)
    = Some "Failed to start microphone." /\
    forall events,
      let s' := run script selectedCharacter hasVoices events
                  (fire OtherStartError) in
      optTruthy (recognitionError s') = true /\
      captureStarts s' = (captureStarts s ++ [currentTurn s])%list.
Proof.
  intros script sel voices s Hreach Htimer Hidle fire.
  assert (Hh : forall o,
             handle script voices (MicTimeout o) s
             = startRecognition o (set_startMicTimeout false s)).
  { intros o. cbn [handle]. now rewrite Htimer. }
  assert (Herr : recognitionError (fire OtherStartError)
                 = Some "Failed to start microphone.").
  { unfold fire, dispatch. rewrite commit_recognitionError, Hh.
    unfold startRecognition. fields. now rewrite Hidle. }
  split; [|split; [exact Herr|]].
  - unfold fire, dispatch. rewrite commit_recognitionError, Hh.
    unfold startRecognition. fields. now rewrite Hidle.
  - intros events s'.
    assert (Hblocked : blocked (fire OtherStartError)).
    { split; [now rewrite Herr|].
      apply (errorBlocksMic_dispatch script sel voices
               (MicTimeout OtherStartError) s
               (errorBlocksMic_reachable script sel voices s Hreach)).
      fold (fire OtherStartError). now rewrite Herr. }
    destruct (blocked_run script sel voices events _ Hblocked) as [[H1 _] H2].
    split; [exact H1|]. unfold s'. rewrite H2.
    unfold fire, dispatch. rewrite commit_captureStarts, Hh.
    unfold startRecognition. fields. now rewrite Hidle.
Qed.

(** The theorem when the microphone timer of turn 1 is about to fire. *)
Lemma X9_witness :
  recognitionError
    (dispatch eightTurns "Customer" true (MicTimeout OtherStartError)
       (run eightTurns "Customer" true aiTurn (started eightTurns "Customer")))
  = Some "Failed to start microphone.".
Proof.
  set (s := run eightTurns "Customer" true aiTurn
              (started eightTurns "Customer")).
  assert (Hreach : reachable eightTurns "Customer" true s)
    by (eexists; reflexivity).
  assert (Htimer : startMicTimeout s = true) by (vm_compute; reflexivity).
  assert (Hidle : isRecognitionActive s = false) by (vm_compute; reflexivity).
  destruct (X9_failed_microphone_start eightTurns "Customer" true s
              Hreach Htimer Hidle) as (_ & Hshown & _).
  exact Hshown.
Defined.

(** ** The turn pointer and the mistakes *)

Section TurnPointer.

Variable script : list ScriptLine.
Variable selectedCharacter : string.
Variable hasVoices : bool.

Local Notation "e '>>' s" := (dispatch script selectedCharacter hasVoices e s)
  (at level 60, right associativity, only parsing).

Lemma turn_step (e : Event) (s : State) :
  currentTurn (e >> s) = currentTurn s \/
  (currentTurn (e >> s) = S (currentTurn s) /\
   ((exists i reply, e = AnalysisSettled i reply) \/
    (exists i, e = UtteranceEnd i))).
Proof.
  unfold dispatch. rewrite commit_currentTurn.
  destruct e; cbn [handle];
    try (left; unfold_handlers; fields;
         repeat (split_branch; fields); reflexivity).
  - destruct (nth_error (utterances s) i) as [cl|]; [|now left].
    unfold handleAiTurnEnd.
    destruct (beforeLastTurn script (cl_currentTurn cl));
      destruct hasVoices; fields;
      first [now left | right; split; [reflexivity|]; right; eauto].
  - destruct (nth_error (analyses s) i) as [pa|]; [|now left].
    unfold processUserTurn_resume.
    destruct (beforeLastTurn script (cl_currentTurn (pa_closure pa)));
      fields; [right; split; [reflexivity|]; left; eauto | now left].
Qed.

Lemma mistakes_step (e : Event) (s : State) :
  mistakes (e >> s) = mistakes s \/
  exists i reply pa,
    e = AnalysisSettled i reply /\
    nth_error (analyses s) i = Some pa /\
    mistakes (e >> s)
    = (cl_mistakes (pa_closure pa) ++ resolve (pa_job pa) reply)%list.
Proof.
  unfold dispatch. rewrite commit_mistakes.
  destruct e; cbn [handle];
    try (left; unfold_handlers; fields;
         repeat (split_branch; fields); reflexivity).
  destruct (nth_error (analyses s) i) as [pa|] eqn:Hpa; [|now left].
  right. exists i, reply, pa. split; [reflexivity|]. split; [exact Hpa|].
  unfold processUserTurn_resume.
  destruct (beforeLastTurn script (cl_currentTurn (pa_closure pa)));
    reflexivity.
Qed.

Lemma dialogueOver_dispatch (e : Event) (s : State) :
  dialogueOver s ->
  dialogueOver (e >> s) /\ mistakes (e >> s) = mistakes s.
Proof.
  intros (Hstep & Hnone & Htimer).
  assert (Hlisten : listening s = false).
  { unfold listening. destruct (step s); try reflexivity. congruence. }
  assert (Hc : forall a b, analyses (commit script selectedCharacter a b)
                           = analyses b) by (intros; effects_crush).
  unfold dialogueOver, dispatch.
  rewrite commit_step, commit_mistakes, Hc.
  assert (Hh : (step (handle script hasVoices e s) <> GAME /\
                analyses (handle script hasVoices e s) = [] /\
                speechTimeout (handle script hasVoices e s) = None) /\
               mistakes (handle script hasVoices e s) = mistakes s).
  { destruct e; cbn [handle]; rewrite ?Hlisten, ?Hnone, ?Htimer;
      try (destruct i; cbn [nth_error]);
      unfold startRecognition, speak, handleAiTurnEnd,
        preparePractice_resume, practiceHandleError, practiceHandleEnd,
        successElapsed, startPracticeRecognition, practiceResultHandler;
      fields; repeat (split_branch; fields);
      repeat split; try assumption; try reflexivity; discriminate. }
  destruct Hh as [(H1 & H2 & H3) H4].
  split; [|exact H4]. split; [exact H1|]. split; [exact H2|].
  now apply commit_speechTimeout_none.
Qed.

End TurnPointer.

(** X10: the turn pointer never goes back and moves one turn at a time, and
    only the end of an analysis or of an utterance moves it. *)
Theorem X10_turn_pointer_moves_forward :
  forall script selectedCharacter hasVoices,
    (forall e s,
        let s' := dispatch script selectedCharacter hasVoices e s in
        currentTurn s' = currentTurn s \/
        (currentTurn s' = S (currentTurn s) /\
         ((exists i reply, e = AnalysisSettled i reply) \/
          (exists i, e = UtteranceEnd i)))) /\
    (forall events s,
        currentTurn s
        <= currentTurn (run script selectedCharacter hasVoices events s)).
Proof.
  intros script sel voices. split.
  - intros e s. apply turn_step.
  - intros events. induction events as [|e events IH]; intros s; [cbn; lia|].
    cbn [run fold_left].
    specialize (IH (dispatch script sel voices e s)). unfold run in IH.
    destruct (turn_step script sel voices e s) as [H | [H _]]; lia.
Qed.

(** X11: the accumulated mistakes are changed by the end of an awaited
    analysis and by nothing else, and the new value is what that call of
    [processUserTurn] had captured followed by the mistakes of its turn. *)
Theorem X11_only_an_analysis_changes_the_mistakes :
  forall script selectedCharacter hasVoices e s,
    let s' := dispatch script selectedCharacter hasVoices e s in
    mistakes s' = mistakes s \/
    exists i reply pa,
      e = AnalysisSettled i reply /\
      nth_error (analyses s) i = Some pa /\
      mistakes s'
      = (cl_mistakes (pa_closure pa) ++ resolve (pa_job pa) reply)%list.
Proof. intros script sel voices e s. apply mistakes_step. Qed.

(** X12: once the dialogue is left with no analysis awaited and no silence
    timer pending, the accumulated mistakes are never changed again and the
    dialogue is never entered again. *)
Theorem X12_mistakes_frozen_after_dialogue :
  forall script selectedCharacter hasVoices events s,
    step s <> GAME -> analyses s = [] -> speechTimeout s = None ->
    let s' := run script selectedCharacter hasVoices events s in
    mistakes s' = mistakes s /\ step s' <> GAME.
Proof.
  intros script sel voices events.
  induction events as [|e events IH]; intros s H1 H2 H3.
  - cbn. auto.
  - cbn [run fold_left].
    destruct (dialogueOver_dispatch script sel voices e s
                (conj H1 (conj H2 H3))) as [(H1' & H2' & H3') Hm].
    specialize (IH _ H1' H2' H3'). cbv zeta in IH. unfold run in IH.
    destruct IH as [IHm IHs]. split; [congruence | exact IHs].
Qed.

(** The theorem while the breakdown of "cat" is awaited: the practice of
    "cat" does not touch the mistakes. *)
Lemma X12_witness :
  mistakes
    (run shortScript "Customer" true
       [ BreakdownsSettled 0 (fun _ => Threw); ListenTrigger Started;
         PracticeResult "dog"; PracticeEnd ] awaitingBreakdowns)
  = mistakes awaitingBreakdowns.
Proof.
  assert (H1 : step awaitingBreakdowns <> GAME) by (vm_compute; discriminate).
  assert (H2 : analyses awaitingBreakdowns = []) by (vm_compute; reflexivity).
  assert (H3 : speechTimeout awaitingBreakdowns = None)
    by (vm_compute; reflexivity).
  exact (proj1 (X12_mistakes_frozen_after_dialogue shortScript "Customer" true
                  [ BreakdownsSettled 0 (fun _ => Threw); ListenTrigger Started;
                    PracticeResult "dog"; PracticeEnd ]
                  awaitingBreakdowns H1 H2 H3)).
Defined.

(** ** A script without lines *)

Lemma idle_dispatch (selectedCharacter : string) (hasVoices : bool)
    (e : Event) (s : State) :
  idle s -> idle (dispatch [] selectedCharacter hasVoices e s).
Proof.
  intros (H1 & H2 & H3 & H4 & H5 & H6 & H7 & H8 & H9 & H10 & H11).
  assert (Hh : idle (handle [] hasVoices e s) /\
               mistakesVersion (handle [] hasVoices e s) = mistakesVersion s).
  { unfold idle.
    destruct e; cbn [handle]; unfold listening;
      rewrite ?H1, ?H2, ?H3, ?H4, ?H5, ?H6, ?H7, ?H8; cbn [Step_eqb];
      try (destruct i; cbn [nth_error]);
      unfold handleStart, handleEnd, handleResult, handleError,
        silenceElapsed, processUserTurn, practiceHandleError,
        practiceHandleEnd, startPracticeRecognition, practiceResultHandler;
      fields; rewrite ?H8; cbn [List.length Nat.ltb Nat.leb andb];
      repeat (split_branch; fields);
      try (destruct (currentTurn s); discriminate);
      auto 20. }
  destruct Hh as [(G1 & G2 & G3 & G4 & G5 & G6 & G7 & G8 & G9 & G10 & G11) Hv].
  assert (Hnone : forall z, turnEffect [] selectedCharacter z = z).
  { intros z. unfold turnEffect. cbn [List.length Nat.eqb].
    rewrite orb_true_r. reflexivity. }
  unfold idle, dispatch, commit, samePrepDeps.
  rewrite H1, G1, Hv, Nat.eqb_refl, Hnone. cbn [Step_eqb andb].
  destruct (sameListenerDeps s _), (sameTurnDeps s _); fields; auto 20.
Qed.

(** X13: [generateScript] does not check the length of the script; with a
    script without lines the dialogue stays in [GAME] for ever: whatever
    happens, the microphone is never started, nothing is submitted and
    completion is never signalled. *)
Theorem X13_empty_script_never_ends :
  forall selectedCharacter hasVoices events,
    let s := run [] selectedCharacter hasVoices events
               (started [] selectedCharacter) in
    step s = GAME /\ captureStarts s = [] /\ submissions s = [] /\
    completions s = 0.
Proof.
  intros sel voices events. cbv zeta.
  assert (H : idle (run [] sel voices events (started [] sel))).
  { unfold run. rewrite <- fold_left_rev_right.
    induction (rev events) as [|e l IH]; cbn [fold_right].
    - unfold started, turnEffect, scriptLoaded, idle. cbn. auto 20.
    - now apply idle_dispatch. }
  destruct H as (H1 & _ & _ & _ & _ & _ & _ & _ & H9 & H10 & H11). auto.
Qed.

(** ** The practice cursor *)

Section PracticeCursor.

Variable script : list ScriptLine.
Variable selectedCharacter : string.
Variable hasVoices : bool.

Local Notation "e '>>' s" := (dispatch script selectedCharacter hasVoices e s)
  (at level 60, right associativity, only parsing).

Lemma cursor_step (e : Event) (s : State) :
  currentPracticeWordIndex (e >> s) = currentPracticeWordIndex s \/
  (exists i pc,
      e = SuccessTimeout i /\ nth_error (successTimeouts s) i = Some pc /\
      currentPracticeWordIndex (e >> s) = S (currentPracticeWordIndex s)) \/
  (exists i replies,
      e = BreakdownsSettled i replies /\
      currentPracticeWordIndex (e >> s) = 0).
Proof.
  unfold dispatch. rewrite commit_currentPracticeWordIndex.
  destruct e; cbn [handle];
    try (left; unfold_handlers; fields;
         repeat (split_branch; fields); reflexivity).
  - destruct (nth_error (preparing s) i) as [words|]; [|now left].
    right. right. exists i, replies. split; reflexivity.
  - destruct (nth_error (successTimeouts s) i) as [pc|] eqn:Hpc; [|now left].
    unfold successElapsed. split_branch; fields; [|now left].
    right. left. exists i, pc. repeat split. exact Hpc.
Qed.

(** A success timer is pending only for a result that matched. *)
Lemma success_timer_origin (e : Event) (s : State) (pc : PracticeClosure) :
  In pc (successTimeouts (e >> s)) ->
  In pc (successTimeouts s) \/
  exists transcript target,
    e = PracticeResult transcript /\
    nth_error (practiceWords s) (currentPracticeWordIndex s) = Some target /\
    Js.includes (cleanWord transcript) (cleanWord (word target)) = true /\
    pc = {| pc_index := currentPracticeWordIndex s;
            pc_words := practiceWords s |}.
Proof.
  assert (Hc : forall a b,
             successTimeouts (commit script selectedCharacter a b)
             = successTimeouts b) by (intros; effects_crush).
  unfold dispatch. rewrite Hc.
  destruct e; cbn [handle];
    try (intros H; left; revert H; unfold_handlers; fields;
         repeat (split_branch; fields); intros H; exact H).
  - unfold practiceResultHandler. fields.
    destruct (_ && _); [|now left].
    destruct (nth_error (practiceWords s) (currentPracticeWordIndex s))
      as [target|] eqn:Hcur; [|now left].
    destruct (Js.includes _ _) eqn:Hinc; fields; [|now left].
    intros H. apply in_app_or in H as [H|[<-|[]]]; [now left|].
    right. exists transcript, target. auto.
  - destruct (nth_error (successTimeouts s) i) as [pc0|]; [|now left].
    unfold successElapsed. split_branch; fields; intros H; left;
      exact (removeAt_In _ _ _ H).
Qed.

(** A matching result while no success timer is pending. *)
Lemma success_event (transcript : string) (target : PracticeWord) (s : State) :
  nth_error (practiceWords s) (currentPracticeWordIndex s) = Some target ->
  Js.includes (cleanWord transcript) (cleanWord (word target)) = true ->
  successTimeouts s = [] ->
  PracticeResult transcript >> s
  = set_successTimeouts
      [{| pc_index := currentPracticeWordIndex s;
          pc_words := practiceWords s |}]
      (set_practiceStatus SUCCESS (set_practiceTranscript transcript s)).
Proof.
  intros Hcur Hinc Hnone. unfold dispatch. cbn [handle].
  unfold practiceResultHandler. fields.
  assert (Hlt : currentPracticeWordIndex s < List.length (practiceWords s)).
  { apply nth_error_Some. congruence. }
  apply Nat.ltb_lt in Hlt as Hidx.
  assert (Hpos : (0 <? List.length (practiceWords s)) = true)
    by (apply Nat.ltb_lt; lia).
  rewrite Hpos, Hidx, Hcur, Hinc, Hnone. cbn [andb app].
  now apply commit_same_deps.
Qed.

End PracticeCursor.

(** X14: the practice cursor is moved by nothing but the 1500ms timer of a
    Success, which advances it by one, and the end of a preparation, which
    sets it to zero; and such a timer is pending only for a capture result
    that contained the current word. *)
Theorem X14_cursor_advances_only_after_success :
  forall script selectedCharacter hasVoices e s,
    let s' := dispatch script selectedCharacter hasVoices e s in
    (currentPracticeWordIndex s' = currentPracticeWordIndex s \/
     (exists i pc,
         e = SuccessTimeout i /\ nth_error (successTimeouts s) i = Some pc /\
         currentPracticeWordIndex s' = S (currentPracticeWordIndex s)) \/
     (exists i replies,
         e = BreakdownsSettled i replies /\ currentPracticeWordIndex s' = 0)) /\
    (forall pc,
        In pc (successTimeouts s') ->
        In pc (successTimeouts s) \/
        exists transcript target,
          e = PracticeResult transcript /\
          nth_error (practiceWords s) (currentPracticeWordIndex s)
          = Some target /\
          Js.includes (cleanWord transcript) (cleanWord (word target)) = true /\
          pc = {| pc_index := currentPracticeWordIndex s;
                  pc_words := practiceWords s |}).
Proof.
  intros script sel voices e s s'. split.
  - apply cursor_step.
  - intros pc. apply success_timer_origin.
Qed.

(** X15: after a Success the 1500ms timer moves on.  When more words
    remain it advances the cursor by one and resets the status to Idle and
    the transcript to empty, without a completion signal; on the last word
    it signals completion once and leaves the cursor and the Success status,
    so that from then on a further timer event or a listen trigger changes
    nothing. *)
Theorem X15_success_moves_on_or_completes :
  forall script selectedCharacter hasVoices s transcript target,
    nth_error (practiceWords s) (currentPracticeWordIndex s) = Some target ->
    Js.includes (cleanWord transcript) (cleanWord (word target)) = true ->
    successTimeouts s = [] ->
    let fire e s := dispatch script selectedCharacter hasVoices e s in
    let s' := fire (SuccessTimeout 0) (fire (PracticeResult transcript) s) in
    (S (currentPracticeWordIndex s) < List.length (practiceWords s) ->
       currentPracticeWordIndex s' = S (currentPracticeWordIndex s) /\
       practiceStatus s' = IDLE /\ practiceTranscript s' = "" /\
       completions s' = completions s) /\
    (S (currentPracticeWordIndex s) = List.length (practiceWords s) ->
       completions s' = S (completions s) /\
       currentPracticeWordIndex s' = currentPracticeWordIndex s /\
       practiceStatus s' = SUCCESS /\
       (forall i, fire (SuccessTimeout i) s' = s') /\
       (forall o, fire (ListenTrigger o) s' = s')).
Proof.
  intros script sel voices s transcript target Hcur Hinc Hnone fire s'.
  assert (Hs' : s' = successElapsed
                       {| pc_index := currentPracticeWordIndex s;
                          pc_words := practiceWords s |}
                       (set_successTimeouts []
                          (set_practiceStatus SUCCESS
                             (set_practiceTranscript transcript s)))).
  { unfold s', fire.
    rewrite (success_event script sel voices transcript target s Hcur Hinc Hnone).
    unfold dispatch. cbn [handle]. fields. cbn [nth_error removeAt firstn skipn app].
    apply commit_same_deps; unfold successElapsed;
      split_branch; reflexivity. }
  split.
  - intros Hmore. rewrite Hs'. unfold successElapsed. cbn [pc_index pc_words].
    assert (Hlt : (Z.of_nat (currentPracticeWordIndex s)
                   <? Z.of_nat (List.length (practiceWords s)) - 1)%Z = true)
      by (apply Z.ltb_lt; lia).
    rewrite Hlt. fields. auto.
  - intros Hlast.
    assert (Hge : (Z.of_nat (currentPracticeWordIndex s)
                   <? Z.of_nat (List.length (practiceWords s)) - 1)%Z = false)
      by (apply Z.ltb_ge; lia).
    assert (Hdone : s' = set_completions (S (completions s))
                           (set_successTimeouts []
                              (set_practiceStatus SUCCESS
                                 (set_practiceTranscript transcript s)))).
    { rewrite Hs'. unfold successElapsed. cbn [pc_index pc_words].
      now rewrite Hge. }
    rewrite Hdone. fields. repeat (split; [reflexivity|]). split.
    + intros i. unfold fire, dispatch. cbn [handle]. fields.
      destruct i; cbn [nth_error]; now apply commit_same_deps.
    + intros o. apply trigger_rejected. fields. discriminate.
Qed.

(** The theorem at the practice of "two" and "apples" for the first word,
    and at the practice of the single word "two". *)
Lemma X15_witness :
  currentPracticeWordIndex
    (dispatch eightTurns "Customer" true (SuccessTimeout 0)
       (dispatch eightTurns "Customer" true (PracticeResult "two")
          practisingTwoWords)) = 1 /\
  completions
    (dispatch twoScript "Customer" true (SuccessTimeout 0)
       (dispatch twoScript "Customer" true (PracticeResult "two")
          practisingTwo)) = 1.
Proof.
  split.
  - assert (Hcur : nth_error (practiceWords practisingTwoWords)
                     (currentPracticeWordIndex practisingTwoWords)
                   = Some {| word := "two"; phonemes := ["two"] |})
      by (vm_compute; reflexivity).
    assert (Hinc : Js.includes (cleanWord "two") (cleanWord "two") = true)
      by (vm_compute; reflexivity).
    assert (Hnone : successTimeouts practisingTwoWords = [])
      by (vm_compute; reflexivity).
    assert (Hmore : S (currentPracticeWordIndex practisingTwoWords)
                    < List.length (practiceWords practisingTwoWords))
      by (vm_compute; lia).
    destruct (X15_success_moves_on_or_completes eightTurns "Customer" true
                practisingTwoWords "two" _ Hcur Hinc Hnone) as [Hnext _].
    destruct (Hnext Hmore) as [Hidx _]. rewrite Hidx.
    vm_compute. reflexivity.
  - assert (Hcur : nth_error (practiceWords practisingTwo)
                     (currentPracticeWordIndex practisingTwo)
                   = Some {| word := "two"; phonemes := ["too"] |})
      by (vm_compute; reflexivity).
    assert (Hinc : Js.includes (cleanWord "two") (cleanWord "two") = true)
      by (vm_compute; reflexivity).
    assert (Hnone : successTimeouts practisingTwo = [])
      by (vm_compute; reflexivity).
    assert (Hlast : S (currentPracticeWordIndex practisingTwo)
                    = List.length (practiceWords practisingTwo))
      by (vm_compute; reflexivity).
    destruct (X15_success_moves_on_or_completes twoScript "Customer" true
                practisingTwo "two" _ Hcur Hinc Hnone) as [_ Hend].
    destruct (Hend Hlast) as [Hdone _]. rewrite Hdone.
    vm_compute. reflexivity.
Defined.

(** X16: a capture error of the practice recognizer always brings the
    status back to Idle, from TryAgain as well, so that the next trigger
    starts listening again; a kind other than [no-speech] and [aborted]
    also stores an error message.  When [start()] throws, the trigger ends
    in Idle with the message "Mic failed to start. Please try again.". *)
Theorem X16_practice_error_returns_to_idle :
  forall script selectedCharacter hasVoices s kind,
    let fire e s := dispatch script selectedCharacter hasVoices e s in
    let s' := fire (PracticeError kind) s in
    practiceStatus s' = IDLE /\
    practiceStatus (fire (ListenTrigger Started) s') = LISTENING /\
    recognitionError s'
    = (if String.eqb kind "no-speech" || String.eqb kind "aborted"
       then recognitionError s
       else Some ("Mic error: " ++ dquote ++ kind ++ dquote ++ ".")) /\
    practiceStatus (fire (ListenTrigger OtherStartError) s') = IDLE /\
    recognitionError (fire (ListenTrigger OtherStartError) s')
    = Some "Mic failed to start. Please try again.".
Proof.
  intros script sel voices s kind fire s'.
  assert (Hidle : practiceStatus s' = IDLE).
  { unfold s', fire, dispatch. rewrite commit_practiceStatus.
    cbn [handle]. unfold practiceHandleError. reflexivity. }
  split; [exact Hidle|]. split.
  - exact (proj1 (trigger_from_idle script sel voices s' Hidle)).
  - split.
    + unfold s', fire, dispatch. rewrite commit_recognitionError.
      cbn [handle]. unfold practiceHandleError.
      destruct (String.eqb kind "no-speech"), (String.eqb kind "aborted");
        reflexivity.
    + unfold fire, dispatch.
      rewrite commit_practiceStatus, commit_recognitionError.
      cbn [handle]. unfold startPracticeRecognition. rewrite Hidle.
      split; reflexivity.
Qed.

(** ** The text handed to [JSON.parse] *)

Section ResponseText.

Lemma append_assoc (a b c : string) : (a ++ b) ++ c = a ++ b ++ c.
Proof. induction a as [|x a IH]; cbn [append]; [reflexivity|]. now rewrite IH. Qed.

Lemma length_append (a b : string) :
  String.length (a ++ b) = String.length a + String.length b.
Proof. induction a as [|x a IH]; cbn [append String.length]; [reflexivity|]. now rewrite IH. Qed.

Lemma dropChars_app (a b : string) : dropChars (String.length a) (a ++ b) = b.
Proof. induction a as [|x a IH]; [destruct b; reflexivity|]. exact IH. Qed.

Lemma takeChars_app (a b : string) : takeChars (String.length a) (a ++ b) = a.
Proof.
  induction a as [|x a IH]; [destruct b; reflexivity|].
  cbn [append String.length takeChars]. now rewrite IH.
Qed.

Lemma lacks_app (c : ascii) (a b : string) :
  Js.lacks c (a ++ b) = Js.lacks c a && Js.lacks c b.
Proof.
  induction a as [|x a IH]; cbn [append Js.lacks]; [reflexivity|].
  now rewrite IH, andb_assoc.
Qed.

Lemma indexOf_first (c : ascii) (a r : string) :
  Js.lacks c a = true -> indexOf c (a ++ String c r) = Some (String.length a).
Proof.
  induction a as [|x a IH]; cbn [append Js.lacks indexOf String.length].
  - now rewrite Ascii.eqb_refl.
  - intros H. apply andb_prop in H as [Hx Ha].
    apply negb_true_iff in Hx. now rewrite Hx, (IH Ha).
Qed.

Lemma lastIndexOf_none (c : ascii) (s : string) :
  Js.lacks c s = true -> lastIndexOf c s = None.
Proof.
  induction s as [|x s IH]; cbn [Js.lacks lastIndexOf]; [reflexivity|].
  intros H. apply andb_prop in H as [Hx Hs].
  apply negb_true_iff in Hx. now rewrite (IH Hs), Hx.
Qed.

Lemma lastIndexOf_last (c : ascii) (a post : string) :
  Js.lacks c post = true ->
  lastIndexOf c (a ++ String c post) = Some (String.length a).
Proof.
  intros Hpost. induction a as [|x a IH]; cbn [append lastIndexOf String.length].
  - now rewrite (lastIndexOf_none c post Hpost), Ascii.eqb_refl.
  - now rewrite IH.
Qed.

(** The decompositions that [indexOf] and [lastIndexOf] find. *)
Lemma indexOf_some (c : ascii) (s : string) (i : nat) :
  indexOf c s = Some i ->
  exists a r, s = a ++ String c r /\ String.length a = i /\ Js.lacks c a = true.
Proof.
  revert i. induction s as [|x s IH]; cbn [indexOf]; [discriminate|].
  intros i. destruct (Ascii.eqb x c) eqn:Hx.
  - intros H. injection H as <-. apply Ascii.eqb_eq in Hx as ->.
    now exists EmptyString, s.
  - destruct (indexOf c s) as [j|]; [|discriminate].
    intros H. injection H as <-.
    destruct (IH j eq_refl) as (a & r & -> & Hlen & Ha).
    exists (String x a), r. cbn [append String.length Js.lacks].
    now rewrite Hx, Ha, Hlen.
Qed.

Lemma lastIndexOf_some (c : ascii) (s : string) (j : nat) :
  lastIndexOf c s = Some j ->
  exists a post,
    s = a ++ String c post /\ String.length a = j /\ Js.lacks c post = true.
Proof.
  revert j. induction s as [|x s IH]; cbn [lastIndexOf]; [discriminate|].
  intros j. destruct (lastIndexOf c s) as [k|] eqn:Hk.
  - intros H. injection H as <-.
    destruct (IH k eq_refl) as (a & post & -> & Hlen & Hp).
    exists (String x a), post. cbn [append String.length]. now rewrite Hlen.
  - destruct (Ascii.eqb x c) eqn:Hx; [|discriminate].
    intros H. injection H as <-. apply Ascii.eqb_eq in Hx as ->.
    exists EmptyString, s. repeat split.
    clear IH. induction s as [|y s IH]; [reflexivity|].
    cbn [lastIndexOf] in Hk. cbn [Js.lacks].
    destruct (lastIndexOf c s); [discriminate|].
    destruct (Ascii.eqb y c); [discriminate|]. now rewrite IH.
Qed.

Lemma append_split (a1 b1 a2 b2 : string) :
  a1 ++ b1 = a2 ++ b2 -> String.length a1 <= String.length a2 ->
  exists m, a2 = a1 ++ m /\ b1 = m ++ b2.
Proof.
  revert a2. induction a1 as [|x a1 IH]; intros a2 H Hlen.
  - now exists a2.
  - destruct a2 as [|y a2]; [cbn in Hlen; lia|].
    cbn [append] in H. injection H as -> H.
    cbn [String.length] in Hlen.
    destruct (IH a2 H ltac:(lia)) as (m & -> & ->). now exists m.
Qed.

Lemma slice_bracketed (pre inner post : string) :
  Js.lacks "[" pre = true -> Js.lacks "]" post = true ->
  sliceArray (pre ++ bracketed inner ++ post) = bracketed inner.
Proof.
  intros Hpre Hpost. unfold sliceArray, bracketed.
  cbn [append]. rewrite (indexOf_first "[" pre _ Hpre).
  replace (pre ++ String "[" ((inner ++ "]") ++ post))
    with ((pre ++ String "[" inner) ++ String "]" post)
    by (rewrite !append_assoc; reflexivity).
  rewrite (lastIndexOf_last "]" _ post Hpost), length_append.
  cbn [String.length].
  assert (Hlt : (String.length pre <? String.length pre + S (String.length inner))
                = true) by (apply Nat.ltb_lt; lia).
  rewrite Hlt. unfold substring.
  rewrite append_assoc, dropChars_app.
  replace (String.length pre + S (String.length inner) + 1 - String.length pre)
    with (String.length (String "[" (inner ++ "]")))
    by (cbn [String.length]; rewrite length_append; cbn [String.length]; lia).
  cbn [append].
  replace (String "[" (inner ++ String "]" post))
    with (String "[" (inner ++ "]") ++ post)
    by (cbn [append]; rewrite append_assoc; reflexivity).
  apply takeChars_app.
Qed.

(** What [sliceArray] changes has the shape the previous lemma expects. *)
Lemma slice_shape (s : string) :
  sliceArray s = s \/
  exists pre inner post,
    s = pre ++ bracketed inner ++ post /\
    Js.lacks "[" pre = true /\ Js.lacks "]" post = true.
Proof.
  unfold sliceArray.
  destruct (indexOf "[" s) as [i|] eqn:Hi; [|now left].
  destruct (lastIndexOf "]" s) as [j|] eqn:Hj; [|now left].
  destruct (i <? j) eqn:Hlt; [|now left]. right.
  apply Nat.ltb_lt in Hlt.
  destruct (indexOf_some _ _ _ Hi) as (pre & r & Hs & Hlen & Hpre).
  destruct (lastIndexOf_some _ _ _ Hj) as (a & post & Hs' & Hlen' & Hpost).
  rewrite Hs in Hs'.
  destruct (append_split pre _ a _ Hs' ltac:(lia)) as (m & -> & Hm).
  destruct m as [|x m].
  { rewrite length_append in Hlen'. cbn [String.length] in Hlen'. lia. }
  cbn [append] in Hm. injection Hm as <- ->.
  exists pre, m, post. unfold bracketed. cbn [append].
  rewrite append_assoc. cbn [append]. auto.
Qed.

Lemma startsWith_head (a c : ascii) (r sub : string) :
  Ascii.eqb c a = false -> Js.startsWith (String a r) (String c sub) = false.
Proof. intros H. cbn [Js.startsWith]. now rewrite H. Qed.

Lemma indexOfString_first (c : ascii) (sub a r : string) :
  Js.lacks c a = true ->
  indexOfString (String c sub) (a ++ String c sub ++ r)
  = Some (String.length a).
Proof.
  induction a as [|x a IH]; intros Ha.
  - cbn [append String.length].
    change (String c (sub ++ r)) with (String c sub ++ r).
    destruct (String c sub ++ r) eqn:E; cbn [indexOfString];
      rewrite <- E, startsWith_app; reflexivity.
  - cbn [Js.lacks] in Ha. apply andb_prop in Ha as [Hx Ha].
    apply negb_true_iff in Hx.
    specialize (IH Ha). cbn [append] in IH |- *.
    cbn [indexOfString String.length].
    rewrite startsWith_head by (now rewrite Ascii.eqb_sym).
    now rewrite IH.
Qed.

Lemma trimStart_white (ws r : string) :
  allWhiteSpace ws = true -> Js.trimStart (ws ++ r) = Js.trimStart r.
Proof.
  induction ws as [|x ws IH]; cbn [allWhiteSpace append]; [reflexivity|].
  intros H. apply andb_prop in H as [Hx Hws].
  cbn [Js.trimStart]. now rewrite Hx, (IH Hws).
Qed.

Lemma trimStart_append (b r : string) :
  Js.truthy b = true -> Js.trimStart b = b -> Js.trimStart (b ++ r) = b ++ r.
Proof.
  destruct b as [|c b]; [discriminate|]. intros _ H.
  pose proof (trimStart_head _ _ _ H) as Hc.
  cbn [append]. now apply trimStart_fixed.
Qed.

Lemma trimEnd_white (s ws : string) :
  allWhiteSpace ws = true -> Js.trimEnd (s ++ ws) = Js.trimEnd s.
Proof.
  intros Hws. induction s as [|x s IH]; cbn [append].
  - induction ws as [|y ws IH]; [reflexivity|].
    cbn [allWhiteSpace] in Hws. apply andb_prop in Hws as [Hy Hws].
    cbn [Js.trimEnd]. now rewrite (IH Hws), Hy.
  - cbn [Js.trimEnd]. now rewrite IH.
Qed.

Lemma white_lacks (c : ascii) (ws : string) :
  Js.isWhiteSpace c = false -> allWhiteSpace ws = true -> Js.lacks c ws = true.
Proof.
  intros Hc. induction ws as [|y ws IH]; [reflexivity|].
  cbn [allWhiteSpace Js.lacks]. intros H. apply andb_prop in H as [Hy Hws].
  rewrite (IH Hws), andb_true_r. apply negb_true_iff.
  destruct (Ascii.eqb y c) eqn:E; [|reflexivity].
  apply Ascii.eqb_eq in E. congruence.
Qed.

Lemma trimEnd_last (s : string) (c : ascii) :
  Js.isWhiteSpace c = false ->
  Js.trimEnd (s ++ String c EmptyString) = s ++ String c EmptyString.
Proof.
  intros Hc. induction s as [|x s IH]; cbn [append Js.trimEnd].
  - now rewrite Hc.
  - rewrite IH. destruct s; reflexivity.
Qed.

Lemma indexOfString_fence (a r : string) :
  Js.lacks backquote a = true ->
  indexOfString fence (a ++ fence ++ r) = Some (String.length a).
Proof. intros Ha. unfold fence. now apply indexOfString_first. Qed.

(** The match of the fence expression on a fenced reply. *)
Lemma fenceMatch_fenced (pre ws1 body ws2 post : string) :
  Js.lacks backquote pre = true ->
  allWhiteSpace ws1 = true -> allWhiteSpace ws2 = true ->
  Js.lacks backquote body = true ->
  Js.truthy body = true ->
  Js.trimStart body = body -> Js.trimEnd body = body ->
  fenceMatch (fenced pre ws1 body ws2 post) = Some body.
Proof.
  intros Hpre Hws1 Hws2 Hbq Hne Hstart Hend.
  unfold fenceMatch, fenced.
  rewrite (indexOfString_fence pre _ Hpre).
  replace (pre ++ fence ++ "json" ++ ws1 ++ body ++ ws2 ++ fence ++ post)
    with ((pre ++ fence) ++ "json" ++ ws1 ++ body ++ ws2 ++ fence ++ post)
    by (now rewrite append_assoc).
  replace (String.length pre + 3) with (String.length (pre ++ fence))
    by (rewrite length_append; reflexivity).
  rewrite dropChars_app, startsWith_app.
  cbn [dropChars append].
  rewrite (trimStart_white ws1 _ Hws1), (trimStart_append body _ Hne Hstart).
  rewrite <- append_assoc.
  assert (Hlacks : Js.lacks backquote (body ++ ws2) = true).
  { rewrite lacks_app, Hbq. apply white_lacks; [reflexivity|exact Hws2]. }
  rewrite (indexOfString_fence (body ++ ws2) post Hlacks).
  rewrite takeChars_app, (trimEnd_white body ws2 Hws2), Hend. reflexivity.
Qed.

End ResponseText.

(** X17: [getPhoneticBreakdown] parses what lies between the first opening
    and the last closing bracket of the trimmed reply, brackets included:
    text before and after is dropped, brackets in between are kept. *)
Theorem X17_breakdown_text_is_first_to_last_bracket :
  forall text pre inner post,
    Js.trim text = pre ++ bracketed inner ++ post ->
    Js.lacks "[" pre = true ->
    Js.lacks "]" post = true ->
    breakdownJsonText text = bracketed inner.
Proof.
  intros text pre inner post Htrim Hpre Hpost.
  unfold breakdownJsonText. rewrite Htrim. now apply slice_bracketed.
Qed.

(** The theorem at a reply with words around a nested array. *)
Lemma X17_witness :
  breakdownJsonText "  Here: [1, [2], 3] ok  " = "[1, [2], 3]".
Proof.
  apply (X17_breakdown_text_is_first_to_last_bracket
           "  Here: [1, [2], 3] ok  " "Here: " "1, [2], 3" " ok");
    vm_compute; reflexivity.
Defined.

(** X18: the cleaning of [getPhoneticBreakdown] returns the trimmed reply
    or a text in brackets, and cleaning its result again changes nothing. *)
Theorem X18_breakdown_text_is_stable :
  forall text,
    (breakdownJsonText text = Js.trim text \/
     exists inner, breakdownJsonText text = bracketed inner) /\
    breakdownJsonText (breakdownJsonText text) = breakdownJsonText text.
Proof.
  intros text. unfold breakdownJsonText.
  destruct (slice_shape (Js.trim text))
    as [Hsame | (pre & inner & post & Hs & Hpre & Hpost)].
  - split; [now left|]. now rewrite Hsame, trim_idempotent.
  - rewrite Hs, (slice_bracketed pre inner post Hpre Hpost).
    split; [right; now exists inner|].
    assert (Htrim : Js.trim (bracketed inner) = bracketed inner).
    { unfold Js.trim, bracketed. cbn [append].
      rewrite trimStart_fixed by reflexivity.
      change (String "[" (inner ++ "]")) with (String "[" inner ++ "]").
      now apply trimEnd_last. }
    rewrite Htrim.
    pose proof (slice_bracketed EmptyString inner EmptyString eq_refl eq_refl)
      as Hagain.
    cbn [append] in Hagain. now rewrite append_empty_r in Hagain.
Qed.

(** X19: [analyzeReadingWithAI] and [generateScript] parse the body of a
    code fence tagged [json] when the trimmed reply holds one: the text
    around the fence and the white space inside it are dropped, and the
    body is not cut at its brackets. *)
Theorem X19_fenced_reply_is_unwrapped :
  forall text pre ws1 body ws2 post,
    Js.trim text = fenced pre ws1 body ws2 post ->
    Js.lacks backquote pre = true ->
    allWhiteSpace ws1 = true ->
    allWhiteSpace ws2 = true ->
    Js.lacks backquote body = true ->
    Js.truthy body = true ->
    Js.trimStart body = body ->
    Js.trimEnd body = body ->
    fencedJsonText text = body.
Proof.
  intros text pre ws1 body ws2 post Htrim Hpre Hws1 Hws2 Hbq Hne Hstart Hend.
  unfold fencedJsonText. rewrite Htrim.
  rewrite (fenceMatch_fenced pre ws1 body ws2 post Hpre Hws1 Hws2 Hbq Hne
             Hstart Hend).
  destruct body as [|c r]; [discriminate|].
  unfold Js.trim. now rewrite Hstart, Hend.
Qed.

(** The theorem at a fenced object between two remarks. *)
Lemma X19_witness :
  fencedJsonText " Sure: ```json  {a: [1]} ``` bye [2] " = "{a: [1]}".
Proof.
  apply (X19_fenced_reply_is_unwrapped
           " Sure: ```json  {a: [1]} ``` bye [2] "
           "Sure: " "  " "{a: [1]}" " " " bye [2]");
    vm_compute; reflexivity.
Defined.

(** X20: on a reply that fences an array, with no bracket outside the
    fence, the cleaning with the fence expression and the cleaning without
    it hand the same text to the parser: the array. *)
Theorem X20_fenced_array_is_read_alike :
  forall text pre ws1 inner ws2 post,
    Js.trim text = fenced pre ws1 (bracketed inner) ws2 post ->
    Js.lacks backquote pre = true ->
    Js.lacks "[" pre = true ->
    allWhiteSpace ws1 = true ->
    allWhiteSpace ws2 = true ->
    Js.lacks backquote inner = true ->
    Js.lacks "]" post = true ->
    fencedJsonText text = bracketed inner /\
    breakdownJsonText text = bracketed inner.
Proof.
  intros text pre ws1 inner ws2 post Htrim Hbq Hpre Hws1 Hws2 Hinner Hpost.
  assert (Hstart : Js.trimStart (bracketed inner) = bracketed inner)
    by (unfold bracketed; cbn [append]; now apply trimStart_fixed).
  assert (Hend : Js.trimEnd (bracketed inner) = bracketed inner).
  { unfold bracketed. cbn [append].
    change (String "[" (inner ++ "]")) with (String "[" inner ++ "]").
    now apply trimEnd_last. }
  split.
  - unfold fencedJsonText. rewrite Htrim.
    assert (Hlacks : Js.lacks backquote (bracketed inner) = true).
    { unfold bracketed. cbn [append Js.lacks]. now rewrite lacks_app, Hinner. }
    rewrite (fenceMatch_fenced pre ws1 (bracketed inner) ws2 post Hbq Hws1 Hws2
               Hlacks eq_refl Hstart Hend).
    unfold bracketed at 1. cbn [append]. fold (bracketed inner).
    change (String "[" (inner ++ "]")) with (bracketed inner).
    unfold Js.trim. now rewrite Hstart, Hend.
  - unfold breakdownJsonText. rewrite Htrim. unfold fenced.
    replace (pre ++ fence ++ "json" ++ ws1 ++ bracketed inner
             ++ ws2 ++ fence ++ post)
      with ((pre ++ fence ++ "json" ++ ws1) ++ bracketed inner
            ++ (ws2 ++ fence ++ post))
      by (now rewrite !append_assoc).
    apply slice_bracketed.
    + rewrite !lacks_app, Hpre, (white_lacks "[" ws1 eq_refl Hws1). reflexivity.
    + rewrite !lacks_app, Hpost, (white_lacks "]" ws2 eq_refl Hws2). reflexivity.
Qed.

(** The theorem at a fenced array after a remark. *)
Lemma X20_witness :
  fencedJsonText "Result: ```json [1, 2] ```" = "[1, 2]" /\
  breakdownJsonText "Result: ```json [1, 2] ```" = "[1, 2]".
Proof.
  apply (X20_fenced_array_is_read_alike
           "Result: ```json [1, 2] ```" "Result: " " " "1, 2" " " "");
    vm_compute; reflexivity.
Defined.

(** ** Loading the script *)

(** X21: choosing a role empties the mistakes, clears the error and shows
    the loading step.  The reply then leads to the dialogue exactly when it
    parses to an array whose items all have the keys [character] and
    [line], whatever the length of the array and the values under the keys:
    the array becomes the script and the turn pointer is 0.  Every other
    reply leads back to the choice of the role with the error message, the
    scene, the role and the script as they were. *)
Theorem X21_script_reply_outcome :
  forall (s : Selection.State) (character : string) (reply : attempt json),
    let loading := Selection.handleCharacterSelect character s in
    let s' := Selection.generateScript_resume reply loading in
    Selection.step loading = LOADING_SCRIPT /\
    Selection.error loading = None /\
    Selection.selectedCharacter s' = Some character /\
    Selection.selectedScene s' = Selection.selectedScene s /\
    Selection.mistakes s' = [] /\
    ((exists items,
         reply = Parsed (JArray items) /\
         forallb Selection.isScriptItem items = true /\
         Selection.step s' = GAME /\ Selection.script s' = items /\
         Selection.currentTurn s' = 0 /\ Selection.error s' = None) \/
     ((forall items,
          reply = Parsed (JArray items) ->
          forallb Selection.isScriptItem items = false) /\
      Selection.step s' = CHARACTER /\
      Selection.script s' = Selection.script s /\
      Selection.currentTurn s' = Selection.currentTurn s /\
      Selection.error s'
      = Some "Sorry, I couldn't create a script. Please try again.")).
Proof.
  intros s character reply loading s'.
  repeat (split; [reflexivity|]).
  unfold s', Selection.generateScript_resume.
  destruct reply as [|[| | | |items|]];
    try (repeat split; try reflexivity;
         right; repeat split; intros; discriminate).
  destruct (forallb Selection.isScriptItem items) eqn:Hall.
  - repeat (split; [reflexivity|]).
    left. exists items. repeat split. exact Hall.
  - repeat (split; [reflexivity|]).
    right. repeat split. intros items' H. injection H as <-. exact Hall.
Qed.

(** ** The application *)

Section Levels.

Lemma levelsAhead_handle (e : App.Event) (s : App.State) :
  levelsAhead s -> levelsAhead (App.handle e s).
Proof.
  unfold levelsAhead, App.handle, App.screen, App.gradeChosen.
  destruct s as [[g|] level key finished]; cbn;
    [destruct (g =? 0)%Z|]; destruct e, finished; cbn; lia.
Qed.

Lemma levelsAhead_run (events : list App.Event) (s : App.State) :
  levelsAhead s -> levelsAhead (App.run events s).
Proof.
  revert s. induction events as [|e events IH]; intros s H; [exact H|].
  apply IH, levelsAhead_handle, H.
Qed.

End Levels.

(** X22: whatever the player clicks and whenever a game reports its
    completion, the number of games started after the first never exceeds
    the number of levels completed; and on the completion screen the level
    counter is at least 1 and ahead of the game counter, so that the
    heading [Level {currentLevel - 1} Complete!] names a level from 0 on. *)
Theorem X22_levels_stay_ahead_of_games :
  forall events,
    let s := App.run events App.initial in
    App.gameKey s <= App.currentLevel s /\
    (App.screen s = App.LevelComplete ->
     App.gameKey s < App.currentLevel s /\ 1 <= App.currentLevel s).
Proof.
  intros events s.
  assert (H : levelsAhead s)
    by (apply levelsAhead_run; unfold levelsAhead; cbn; lia).
  unfold levelsAhead in H. split.
  - destruct (App.isFinished s); lia.
  - unfold App.screen. destruct (negb _); [discriminate|].
    destruct (App.isFinished s); [lia|discriminate].
Qed.

(** X23: on the grade selection, a grade of 0 is stored but leaves the
    grade selection on the screen; any other grade starts level 0 with game
    key 0 and shows the game, whatever was played before. *)
Theorem X23_grade_selection :
  forall s grade,
    App.screen s = App.GradeSelection ->
    let s' := App.handle (App.GradeSelect grade) s in
    App.userGrade s' = Some grade /\
    App.currentLevel s' = 0 /\ App.gameKey s' = 0 /\
    App.screen s' = (if (grade =? 0)%Z then App.GradeSelection else App.Game).
Proof.
  intros s grade Hscreen s'.
  unfold s', App.handle. rewrite Hscreen.
  unfold App.screen, App.gradeChosen, App.handleSetGrade. cbn.
  destruct (grade =? 0)%Z; auto.
Qed.

(** The theorem at the grade 3 chosen after a completed level of grade 2
    and the way back to the grades. *)
Lemma X23_witness :
  App.screen
    (App.handle (App.GradeSelect 3)
       (App.run [App.GradeSelect 2; App.Complete; App.PlayAgain;
                 App.BackToGrades] App.initial))
  = App.Game.
Proof.
  exact (proj2 (proj2 (proj2
    (X23_grade_selection
       (App.run [App.GradeSelect 2; App.Complete; App.PlayAgain;
                 App.BackToGrades] App.initial)
       3 eq_refl)))).
Defined.
